(** * MCP client (Bedrock edition): a shallow embedding of [index.ts] and
  [index_auth.ts]

  The two source files share the conversation engine ([invokeClaudeModel],
  [processQuery]), the local connector and the configuration loader; they
  differ in [connectToRemoteServer], [connectWithTransport] and [main].
  Shared code is embedded once; the parts that differ live in the modules
  [Index] and [IndexAuth].

  Every asynchronous call of the source is awaited at once, so the program
  is sequential: it is embedded as state passing over a [Machine] that holds
  the outside world and the trace of observable events, with JavaScript
  completions ([Normal], [Throw], and [Halt] for a promise that never
  settles or a process that has exited). *)

From Stdlib Require Import Ascii String.
From stdpp Require Import base strings list gmap.

Local Open Scope string_scope.
Local Open Scope list_scope.

(** ** Thrown values *)

(** What a [catch (error)] clause can receive: an instance of [Error] (with
  its subclasses that matter here) or any other value, kept as the text
  [String(error)] gives. *)
Inductive Exn :=
| Error (message : string)
| TypeError (message : string)
| SyntaxError (message : string)
| ThrownValue (repr : string).

(** [error instanceof Error] *)
Definition instanceof_Error (error : Exn) : bool :=
  match error with
  | ThrownValue _ => false
  | _ => true
  end.

(** [error.message] for an [Error], [String(error)] otherwise. *)
Definition exn_text (error : Exn) : string :=
  match error with
  | Error m | TypeError m | SyntaxError m => m
  | ThrownValue r => r
  end.

(** How an awaited promise of a collaborator ends. *)
Inductive Settled (A : Type) :=
| Fulfilled (a : A)
| Rejected (e : Exn)
| NeverSettles.
Arguments Fulfilled {A} a.
Arguments Rejected {A} e.
Arguments NeverSettles {A}.

(** ** JSON values

  JSON documents (tool arguments, tool results, input schemas) are opaque to
  the client: it only forwards them and prints them with [JSON.stringify]. *)
Class JsonModel := {
  Json : Type;
  JSON_stringify : Json -> string;
}.

(** ** Data model *)
Section DataModel.
Context `{JsonModel}.

(** A content block of a model reply; the engine dispatches on its [type]. *)
Inductive ContentBlock :=
| TextBlock (text : string)
| ToolUseBlock (name : string) (input : option Json) (id : string)
| OtherBlock (type : string).

(** The parsed reply body, [responseBody]. *)
Record ModelResponse := { response_content : list ContentBlock }.

Inductive Role := user | assistant.

(** Blocks the engine itself writes into the transcript. *)
Inductive ContentBlockParam :=
| ToolUseParam (name : string) (input : option Json) (id : string)
| ToolResultParam (tool_use_id : string) (content : Json).

Inductive MessageContent :=
| TextContent (s : string)
| BlockContent (blocks : list ContentBlockParam).

Record MessageParam := { role : Role; message_content : MessageContent }.

(** Entry of [this.tools]. *)
Record Tool := {
  tool_name : string;
  tool_description : option string;
  input_schema : Json;
}.

(** Entry of [listTools()]'s result. *)
Record ServerTool := {
  server_tool_name : string;
  server_tool_description : option string;
  inputSchema : Json;
}.

(** Result of [mcp.callTool]. *)
Record ToolResult := { result_content : Json }.

(** [payload] of [invokeClaudeModel]. The source serialises it with
    [JSON.stringify] when the command is built, so the command carries a
    snapshot of the transcript; the embedding keeps the snapshot
    structured. *)
Record Payload := {
  anthropic_version : string;
  max_tokens : Z;
  messages : list MessageParam;
  tools : list Tool;
}.

Record InvokeModelCommand := {
  modelId : string;
  body : Payload;
  contentType : string;
}.

(** Argument of [new StdioClientTransport]. A field the source leaves out
    (or reads as [undefined] from a configuration entry) is [None]. *)
Record StdioClientTransport := {
  command : option string;
  args : list string;
  env : option (gmap string string);
}.

(** The fields of [this] that the source assigns after construction. *)
Record MCPClient := {
  transport : option StdioClientTransport;
  this_tools : list Tool;
}.

(** A configuration entry as [JSON.parse] delivers it: any of the three
    fields may be missing. [index.ts] declares only [command] and [args]. *)
Record MCPServerConfig := {
  cfg_command : option string;
  cfg_args : option (list string);
  cfg_url : option string;
}.

Record MCPConfig := { mcpServers : option (gmap string MCPServerConfig) }.

(** Observable events, in the order they happen. *)
Inductive Event :=
| EvBedrockSend (cmd : InvokeModelCommand) (r : Settled ModelResponse)
| EvCallTool (name : string) (arguments : option Json) (r : Settled ToolResult)
| EvConnect (t : StdioClientTransport) (r : Settled unit)
| EvListTools (r : Settled (list ServerTool))
| EvClose (r : Settled unit)
| EvReadFile (p : string) (r : Settled string)
| EvConsoleLog (line : string)
| EvConsoleLogTools (label : string) (names : list string)
| EvConsoleWarn (line : string) (error : Exn)
| EvConsoleError (line : string) (error : option Exn)
| EvCreateInterface
| EvQuestion (prompt : string)
| EvMaskedPrompt (prompt : string)
| EvRlClose
| EvExit (code : Z).
End DataModel.

(** ** The outside world

  The collaborators of the client: the Bedrock runtime, the MCP client
  library, the file system and the process environment. Each call may depend
  on and change the state of the world. [bedrock_send] stands for
  [bedrock.send(command)] together with the decoding and parsing of the reply
  body that [invokeClaudeModel] does inside the same [try]: a rejection is
  whatever that block throws. *)
Class Runtime `{JsonModel} := {
  World : Type;
  bedrock_send : InvokeModelCommand -> World -> World * Settled ModelResponse;
  mcp_callTool : string -> option Json -> World -> World * Settled ToolResult;
  mcp_connect : StdioClientTransport -> World -> World * Settled unit;
  mcp_listTools : World -> World * Settled (list ServerTool);
  mcp_close : World -> World * Settled unit;
  (* fs *)
  existsSync : string -> World -> bool;
  readFile : string -> World -> World * Settled string;
  (* JSON.parse at the type the loader declares; an [inl] is the thrown error *)
  JSON_parse : string -> Exn + MCPConfig;
  (* path and process *)
  path_join : list string -> string;
  cwd : string;
  process_env : gmap string string;
  platform : string;
  execPath : string;
  stdin_isTTY : bool;
}.

(** ** Completions and the machine *)

Inductive HaltReason :=
| AwaitForever          (* an awaited promise never settles *)
| Exited (code : Z).    (* [process.exit(code)] *)

Inductive Completion (A : Type) :=
| Normal (a : A)
| Throw (e : Exn)
| Halt (h : HaltReason).
Arguments Normal {A} a.
Arguments Throw {A} e.
Arguments Halt {A} h.

Section Machine.
Context `{Runtime}.

(** [this] is the one [MCPClient] object [main] creates: its fields live in
    the machine, so an assignment made before a throw stays made. *)
Record Machine := { world : World; trace : list Event; this : MCPClient }.

Definition M (A : Type) : Type := Machine -> Machine * Completion A.

Definition ret {A} (a : A) : M A := fun m => (m, Normal a).
Definition throw {A} (e : Exn) : M A := fun m => (m, Throw e).
Definition halt {A} (h : HaltReason) : M A := fun m => (m, Halt h).

Definition bind {A B} (c : M A) (k : A -> M B) : M B :=
  fun m =>
    match c m with
    | (m', Normal a) => k a m'
    | (m', Throw e) => (m', Throw e)
    | (m', Halt h) => (m', Halt h)
    end.

(** [try { c } catch (error) { handler error }] *)
Definition try_catch {A} (c : M A) (handler : Exn -> M A) : M A :=
  fun m =>
    match c m with
    | (m', Throw e) => handler e m'
    | r => r
    end.

(** [try { c } finally { f }]: [f] runs after a normal or abrupt completion
    of [c] and its own abrupt completion wins; nothing runs once the
    computation has halted. *)
Definition try_finally {A} (c : M A) (f : M unit) : M A :=
  fun m =>
    match c m with
    | (m', Halt h) => (m', Halt h)
    | (m', r) =>
        match f m' with
        | (m'', Normal _) => (m'', r)
        | (m'', Throw e) => (m'', Throw e)
        | (m'', Halt h) => (m'', Halt h)
        end
    end.

Definition emit (e : Event) : M unit :=
  fun m => ({| world := world m; trace := trace m ++ [e]; this := this m |}, Normal tt).

Definition get_this : M MCPClient := fun m => (m, Normal (this m)).

Definition set_this (c : MCPClient) : M unit :=
  fun m => ({| world := world m; trace := trace m; this := c |}, Normal tt).

(** Reading the world without changing it (synchronous [fs.existsSync]). *)
Definition peek {A} (f : World -> A) : M A := fun m => (m, Normal (f (world m))).

Definition await {A} (s : Settled A) : Completion A :=
  match s with
  | Fulfilled a => Normal a
  | Rejected e => Throw e
  | NeverSettles => Halt AwaitForever
  end.

(** A call to a collaborator: the world moves, the call and its outcome are
    traced, and the outcome is awaited. *)
Definition call {A} (f : World -> World * Settled A) (ev : Settled A -> Event) : M A :=
  fun m =>
    let '(w', r) := f (world m) in
    ({| world := w'; trace := trace m ++ [ev r]; this := this m |}, await r).

(** The machine after an event with no effect on the world. *)
Definition logged (m : Machine) (e : Event) : Machine :=
  {| world := world m; trace := trace m ++ [e]; this := this m |}.

(** The machine after a model call that left the world as [w']. *)
Definition sent (m : Machine) (w' : World) (cmd : InvokeModelCommand)
    (r : Settled ModelResponse) : Machine :=
  {| world := w'; trace := trace m ++ [EvBedrockSend cmd r]; this := this m |}.

(** The machine after a tool call that left the world as [w']. *)
Definition called (m : Machine) (w' : World) (name : string) (arguments : option Json)
    (r : Settled ToolResult) : Machine :=
  {| world := w'; trace := trace m ++ [EvCallTool name arguments r]; this := this m |}.

End Machine.

Notation "'let!' x ':=' c 'in' k" := (bind c (fun x => k))
  (at level 10, x name, c at level 100, k at level 200).
Notation "'let!' ' p ':=' c 'in' k" := (bind c (fun x => match x with p => k end))
  (at level 10, p pattern, c at level 100, k at level 200).
Notation "c ';;' k" := (bind c (fun _ => k))
  (at level 100, k at level 200, right associativity).

(** ** JavaScript library functions the client uses *)

(** The string the source writes ["\n"]. *)
Definition LF : string := String "010"%char EmptyString.

(** [Array.prototype.join] on an array of strings. *)
Fixpoint join (sep : string) (l : list string) : string :=
  match l with
  | [] => ""
  | [x] => x
  | x :: rest => x +:+ sep +:+ join sep rest
  end.

(** ** The conversation engine (identical in both source files) *)
Section Engine.
Context `{Runtime}.

(** The [InvokeModelCommand] that [invokeClaudeModel] builds. *)
Definition model_command (msgs : list MessageParam) (tls : option (list Tool))
  : InvokeModelCommand :=
  let payload := {|
    anthropic_version := "bedrock-2023-05-31";
    max_tokens := 1000;
    messages := msgs;
    tools := default [] tls;
  |} in
  {| modelId := "anthropic.claude-3-sonnet-20240229-v1:0";
     body := payload;
     contentType := "application/json" |}.

(** [invokeClaudeModel(messages, tools)] *)
Definition invokeClaudeModel (msgs : list MessageParam) (tls : option (list Tool))
  : M ModelResponse :=
  let command := model_command msgs tls in
  try_catch
    (call (bedrock_send command) (EvBedrockSend command))
    (fun error =>
       emit (EvConsoleError "Error invoking Bedrock model:" (Some error)) ;;
       throw (Error ("Failed to invoke Bedrock model: " +:+ exn_text error))).

(** The local variables of [processQuery] that the loop updates. *)
Record QueryState := {
  qs_messages : list MessageParam;
  finalText : list string;
  toolResults : list ToolResult;
}.

(** [JSON.stringify(toolArgs)] inside a template literal: [undefined]
    stringifies to [undefined], which the template prints as such. *)
Definition stringify_args (toolArgs : option Json) : string :=
  match toolArgs with
  | Some j => JSON_stringify j
  | None => "undefined"
  end.

Definition calling_tool_line (toolName : string) (toolArgs : option Json) : string :=
  "[Calling tool " +:+ toolName +:+ " with args " +:+ stringify_args toolArgs +:+ "]".

Definition tool_use_message (toolName : string) (toolArgs : option Json) (toolId : string)
  : MessageParam :=
  {| role := assistant;
     message_content := BlockContent [ToolUseParam toolName toolArgs toolId] |}.

Definition tool_result_message (toolId : string) (result : ToolResult) : MessageParam :=
  {| role := user;
     message_content := BlockContent [ToolResultParam toolId (result_content result)] |}.

(** [followUpResponse.content[0].type === "text"] and what follows: reading
    [.type] of the [undefined] that indexing an empty array gives throws. *)
Definition push_followUp (finalText1 : list string) (followUpResponse : ModelResponse)
  : M (list string) :=
  match response_content followUpResponse with
  | [] => throw (TypeError "Cannot read properties of undefined (reading 'type')")
  | TextBlock text :: _ => ret (finalText1 ++ [text])
  | _ :: _ => ret finalText1
  end.

(** One iteration of [for (const content of response.content)]. *)
Definition processBlock (st : QueryState) (content : ContentBlock) : M QueryState :=
  match content with
  | TextBlock text =>
      ret {| qs_messages := qs_messages st;
             finalText := finalText st ++ [text];
             toolResults := toolResults st |}
  | ToolUseBlock toolName toolArgs toolId =>
      let! result := call (mcp_callTool toolName toolArgs) (EvCallTool toolName toolArgs) in
      let toolResults1 := toolResults st ++ [result] in
      let finalText1 := finalText st ++ [calling_tool_line toolName toolArgs] in
      let messages1 := qs_messages st ++ [tool_use_message toolName toolArgs toolId] in
      let messages2 := messages1 ++ [tool_result_message toolId result] in
      let! c := get_this in
      let! followUpResponse := invokeClaudeModel messages2 (Some (this_tools c)) in
      let! finalText2 := push_followUp finalText1 followUpResponse in
      ret {| qs_messages := messages2;
             finalText := finalText2;
             toolResults := toolResults1 |}
  | OtherBlock _ => ret st
  end.

Fixpoint processContent (st : QueryState) (blocks : list ContentBlock) : M QueryState :=
  match blocks with
  | [] => ret st
  | content :: rest =>
      let! st' := processBlock st content in
      processContent st' rest
  end.

Definition initial_messages (query : string) : list MessageParam :=
  [{| role := user; message_content := TextContent query |}].

Definition initial_state (query : string) : QueryState :=
  {| qs_messages := initial_messages query; finalText := []; toolResults := [] |}.

(** [processQuery(query)] *)
Definition processQuery (query : string) : M string :=
  let! c := get_this in
  let! response := invokeClaudeModel (initial_messages query) (Some (this_tools c)) in
  let! st := processContent (initial_state query) (response_content response) in
  ret (join LF (finalText st)).
End Engine.

(** ** Strings *)

(** The character the source writes as a double quote inside its templates. *)
Definition DQUOTE : string := String "034"%char EmptyString.

(** [s.endsWith(suffix)] *)
Definition endsWith (s suffix : string) : bool :=
  (String.length suffix <=? String.length s)%nat
  && String.eqb
       (substring (String.length s - String.length suffix) (String.length suffix) s)
       suffix.

Definition lower_ascii (c : ascii) : ascii :=
  let n := nat_of_ascii c in
  if ((65 <=? n) && (n <=? 90))%nat then ascii_of_nat (n + 32) else c.

(** [s.toLowerCase()], on the letters A to Z. The source only compares the
  result with the ASCII literal [quit]; no character outside A to Z
  lower-cases to one of q, u, i, t (U+0130 gives i followed by U+0307), so
  the comparison is the one of the source for every input. *)
Fixpoint toLowerCase (s : string) : string :=
  match s with
  | EmptyString => EmptyString
  | String c rest => String (lower_ascii c) (toLowerCase rest)
  end.

(** Truthiness of an optional string: [undefined] and the empty string are
  falsy. *)
Definition truthy (o : option string) : bool :=
  match o with
  | Some s => negb (String.eqb s "")
  | None => false
  end.

(** [a || b] on optional strings. *)
Definition or_else (a b : option string) : option string :=
  if truthy a then a else b.

(** [`${x}`] for an optional string. *)
Definition template (o : option string) : string := default "undefined" o.

(** ** Property lookup on a parsed object

  [config.mcpServers[serverName]] finds an own property first and
  otherwise what every plain object inherits from [Object.prototype]: a
  function or object, truthy, on which [command], [args] and [url] all read
  as [undefined]. *)
Definition Object_prototype_keys : list string :=
  ["constructor"; "__defineGetter__"; "__defineSetter__"; "hasOwnProperty";
   "__lookupGetter__"; "__lookupSetter__"; "isPrototypeOf";
   "propertyIsEnumerable"; "toString"; "valueOf"; "__proto__"; "toLocaleString"].

Definition inherited_value : MCPServerConfig :=
  {| cfg_command := None; cfg_args := None; cfg_url := None |}.

Definition get_property (servers : gmap string MCPServerConfig) (serverName : string)
  : option MCPServerConfig :=
  match servers !! serverName with
  | Some e => Some e
  | None =>
      if bool_decide (serverName ∈ Object_prototype_keys)
      then Some inherited_value
      else None
  end.

(** ** Connector, configuration loader and shell: the shared parts *)
Section Shared.
Context `{Runtime}.

(** Everything of [connectToLocalServer] up to the call of
    [connectWithTransport]. *)
Definition local_command (serverScriptPath : string) : M string :=
  let isJs := endsWith serverScriptPath ".js" in
  let isPy := endsWith serverScriptPath ".py" in
  if negb isJs && negb isPy
  then throw (Error "Server script must be a .js or .py file")
  else ret (if isPy
            then (if String.eqb platform "win32" then "python" else "python3")
            else execPath).

Definition connectToLocalServer_with (connectWithTransport : M unit)
    (serverScriptPath : string) : M unit :=
  let! command := local_command serverScriptPath in
  let! c := get_this in
  set_this {| transport := Some {| command := Some command;
                                   args := [serverScriptPath];
                                   env := None |};
              this_tools := this_tools c |} ;;
  connectWithTransport.

(** The body of [connectWithTransport] after the guard: connect, list the
    tools, store and print them. *)
Definition register_tools (t : StdioClientTransport) : M unit :=
  call (mcp_connect t) (EvConnect t) ;;
  let! toolsResult := call mcp_listTools EvListTools in
  let tls := (fun tool => {| tool_name := server_tool_name tool;
                             tool_description := server_tool_description tool;
                             input_schema := inputSchema tool |}) <$> toolsResult in
  let! c := get_this in
  set_this {| transport := transport c; this_tools := tls |} ;;
  emit (EvConsoleLogTools "Connected to server with tools:" (tool_name <$> tls)).

(** One iteration of the loop of [loadConfig]: [Some] is the [return]
    inside the [try], [None] falls through to the next path. *)
Definition try_path (p : string) : M (option MCPConfig) :=
  try_catch
    (let! found := peek (existsSync p) in
     if found : bool
     then
       let! content := call (readFile p) (EvReadFile p) in
       match JSON_parse content with
       | inl error => throw error
       | inr config => ret (Some config)
       end
     else ret None)
    (fun error =>
       emit (EvConsoleWarn ("Failed to read config from " +:+ p +:+ ":") error) ;;
       ret None).

Fixpoint loadConfig_from (paths : list string) : M MCPConfig :=
  match paths with
  | [] => ret {| mcpServers := Some ∅ |}
  | p :: rest =>
      let! r := try_path p in
      match r with
      | Some config => ret config
      | None => loadConfig_from rest
      end
  end.

Definition defaultPaths : list string :=
  [ path_join [cwd; ".mcp.json"];
    path_join [cwd; "mcp-config.json"];
    path_join [default "" (or_else (process_env !! "HOME")
                             (or_else (process_env !! "USERPROFILE") (Some "")));
               ".mcp"; "config.json"] ].

(** [loadConfig(configPath?)] *)
Definition loadConfig (configPath : option string) : M MCPConfig :=
  let paths := if truthy configPath then [default "" configPath] else defaultPaths in
  loadConfig_from paths.

(** The guard both versions of [connectToRemoteServer] start with, and the
    first line they print. *)
Definition lookup_server (serverName : string) (configPath : option string)
  : M MCPServerConfig :=
  let! config := loadConfig configPath in
  match mcpServers config ≫= (fun servers => get_property servers serverName) with
  | None =>
      throw (Error ("Server " +:+ DQUOTE +:+ serverName +:+ DQUOTE
                    +:+ " not found in configuration"))
  | Some serverConfig =>
      emit (EvConsoleLog ("Connecting to remote server: " +:+ serverName)) ;;
      ret serverConfig
  end.

(** [rl.question(prompt)] on what is left of standard input, line by line:
    with no line left the promise stays pending. *)
Definition question (prompt : string) (stdin : list string) : M (string * list string) :=
  emit (EvQuestion prompt) ;;
  match stdin with
  | [] => halt AwaitForever
  | line :: rest => ret (line, rest)
  end.

(** The [while (true)] of [chatLoop]. *)
Fixpoint chatLoop_while (stdin : list string) : M unit :=
  emit (EvQuestion (LF +:+ "Query: ")) ;;
  match stdin with
  | [] => halt AwaitForever
  | message :: rest =>
      if String.eqb (toLowerCase message) "quit"
      then ret tt
      else
        let! response := processQuery message in
        emit (EvConsoleLog (LF +:+ response)) ;;
        chatLoop_while rest
  end.

(** [chatLoop()] *)
Definition chatLoop (stdin : list string) : M unit :=
  emit EvCreateInterface ;;
  try_finally
    (emit (EvConsoleLog (LF +:+ "MCP Client Started with AWS Bedrock (using IAM role authentication)!")) ;;
     emit (EvConsoleLog "Type your queries or 'quit' to exit.") ;;
     chatLoop_while stdin)
    (emit EvRlClose).

(** [cleanup()]: [this.mcp] is set by the constructor. *)
Definition cleanup : M unit := call mcp_close EvClose.

(** [process.exit(code)] *)
Definition process_exit (code : Z) : M unit :=
  emit (EvExit code) ;; halt (Exited code).

(** [args.indexOf(flag) > -1 ? args[args.indexOf(flag) + 1] : undefined] *)
Fixpoint flag_value (flag : string) (args : list string) : option string :=
  match args with
  | [] => None
  | a :: rest => if String.eqb a flag then head rest else flag_value flag rest
  end.
End Shared.

(** ** [index.ts] *)
Module Index.
Section Index.
Context `{Runtime}.

(** [connectWithTransport()] *)
Definition connectWithTransport : M unit :=
  let! c := get_this in
  match transport c with
  | None => throw (Error "Transport not initialized")
  | Some t => register_tools t
  end.

Definition connectToLocalServer : string -> M unit :=
  connectToLocalServer_with connectWithTransport.

(** [connectToRemoteServer] from [const serverConfig = ...] on. *)
Definition connect_serverConfig (serverConfig : MCPServerConfig) : M unit :=
  match cfg_args serverConfig with
  | None => throw (TypeError "Cannot read properties of undefined (reading 'join')")
  | Some cargs =>
      emit (EvConsoleLog ("Command: " +:+ template (cfg_command serverConfig)
                          +:+ " " +:+ join " " cargs)) ;;
      let! c := get_this in
      set_this {| transport := Some {| command := cfg_command serverConfig;
                                       args := cargs;
                                       env := None |};
                  this_tools := this_tools c |} ;;
      connectWithTransport
  end.

(** [connectToRemoteServer(serverName, configPath?)] *)
Definition connectToRemoteServer (serverName : string) (configPath : option string)
  : M unit :=
  let! serverConfig := lookup_server serverName configPath in
  connect_serverConfig serverConfig.

Definition usage : string :=
    "
Usage:
  For local server:    node index.ts --local <path_to_server_script>
  For remote server:   node index.ts --remote <server_name> [--config <config_path>]
  
Examples:
  node index.ts --local ./server.py
  node index.ts --remote " +:+ DQUOTE +:+ "playwright-mcp Docs" +:+ DQUOTE +:+ "
      ".

(** The [try] block of [main]; [args] is [process.argv.slice(2)]. *)
Definition main_try (args : list string) (stdin : list string) : M unit :=
  match args with
  | [] => emit (EvConsoleLog usage)
  | a0 :: rest =>
      if String.eqb a0 "--help" || String.eqb a0 "-h"
      then emit (EvConsoleLog usage)
      else
        match rest with
        | a1 :: _ =>
            if String.eqb a0 "--local"
            then connectToLocalServer a1 ;; chatLoop stdin
            else if String.eqb a0 "--remote"
            then connectToRemoteServer a1 (flag_value "--config" args) ;;
                 chatLoop stdin
            else emit (EvConsoleError "Invalid arguments. Use --help for usage information." None)
        | [] =>
            emit (EvConsoleError "Invalid arguments. Use --help for usage information." None)
        end
  end.

(** [main()]: no [catch]; the [finally] ends the process. *)
Definition main (args : list string) (stdin : list string) : M unit :=
  try_finally (main_try args stdin) (cleanup ;; process_exit 0).
End Index.
End Index.

(** ** [index_auth.ts] *)
Module IndexAuth.
Section IndexAuth.
Context `{Runtime}.

(** [connectWithTransport()]: as in [index.ts], with the connection wrapped
    in a [try]/[catch] that rethrows. *)
Definition connectWithTransport : M unit :=
  let! c := get_this in
  match transport c with
  | None => throw (Error "Transport not initialized")
  | Some t =>
      try_catch (register_tools t)
        (fun error =>
           emit (EvConsoleError "Failed to connect to MCP server:" (Some error)) ;;
           throw (Error ("Connection failed: " +:+ exn_text error)))
  end.

Definition connectToLocalServer : string -> M unit :=
  connectToLocalServer_with connectWithTransport.

(** [promptForInput(prompt, isPassword)]. In the masked branch the source
    returns the promise without awaiting it, so the [finally] closes the
    interface before any key is read; the keys typed up to Enter are taken
    as the next line of standard input. *)
Definition promptForInput (prompt : string) (isPassword : bool) (stdin : list string)
  : M (string * list string) :=
  emit EvCreateInterface ;;
  if isPassword && stdin_isTTY
  then
    emit (EvMaskedPrompt prompt) ;;
    emit EvRlClose ;;
    match stdin with
    | [] => halt AwaitForever
    | line :: rest => ret (line, rest)
    end
  else try_finally (question prompt stdin) (emit EvRlClose).

(** [given || await promptForInput(prompt, isPassword)] *)
Definition given_or_prompt (given : option string) (prompt : string) (isPassword : bool)
    (stdin : list string) : M (string * list string) :=
  if truthy given
  then ret (default "" given, stdin)
  else promptForInput prompt isPassword stdin.

(** [connectToRemoteServer] from [const serverConfig = ...] on; the result
    is what is left of standard input. *)
Definition connect_serverConfig (serverConfig : MCPServerConfig)
    (username password : option string) (stdin : list string) : M (list string) :=
  if truthy (cfg_url serverConfig)
  then
    let url := default "" (cfg_url serverConfig) in
    let! '(githubUsername, stdin1) :=
      given_or_prompt username "GitHub Username: " false stdin in
    let! '(githubPassword, stdin2) :=
      given_or_prompt password "GitHub Password/Token: " true stdin1 in
    emit (EvConsoleLog ("Using mcp-remote to connect to: " +:+ url)) ;;
    let! c := get_this in
    set_this {| transport :=
                  Some {| command := Some "npx";
                          args := ["mcp-remote"; url];
                          env := Some (<["GITHUB_TOKEN" := githubPassword]>
                                         (<["GITHUB_USERNAME" := githubUsername]>
                                            process_env)) |};
                this_tools := this_tools c |} ;;
    connectWithTransport ;;
    ret stdin2
  else
    match cfg_args serverConfig with
    | Some cargs =>
        if truthy (cfg_command serverConfig)
        then
          emit (EvConsoleLog ("Command: " +:+ template (cfg_command serverConfig)
                              +:+ " " +:+ join " " cargs)) ;;
          let! c := get_this in
          set_this {| transport := Some {| command := cfg_command serverConfig;
                                           args := cargs;
                                           env := None |};
                      this_tools := this_tools c |} ;;
          connectWithTransport ;;
          ret stdin
        else throw (Error "Invalid server configuration: missing url or command/args")
    | None => throw (Error "Invalid server configuration: missing url or command/args")
    end.

(** [connectToRemoteServer(serverName, configPath?, username?, password?)] *)
Definition connectToRemoteServer (serverName : string) (configPath : option string)
    (username password : option string) (stdin : list string) : M (list string) :=
  let! serverConfig := lookup_server serverName configPath in
  connect_serverConfig serverConfig username password stdin.

Definition usage : string :=
    "
Usage:
  For local server:    node index.ts --local <path_to_server_script>
  For remote server:   node index.ts --remote <server_name> [--config <config_path>] [--username <github_username>] [--password <github_password>]
  
Examples:
  node index.ts --local ./server.py
  node index.ts --remote " +:+ DQUOTE +:+ "LLMsample Docs" +:+ DQUOTE +:+ "
  node index.ts --remote " +:+ DQUOTE +:+ "LLMsample Docs" +:+ DQUOTE +:+ " --username myusername --password mytoken
      ".

(** The [try] block of [main]; [args] is [process.argv.slice(2)]. *)
Definition main_try (args : list string) (stdin : list string) : M unit :=
  match args with
  | [] => emit (EvConsoleLog usage)
  | a0 :: rest =>
      if String.eqb a0 "--help" || String.eqb a0 "-h"
      then emit (EvConsoleLog usage)
      else
        match rest with
        | a1 :: _ =>
            if String.eqb a0 "--local"
            then connectToLocalServer a1 ;; chatLoop stdin
            else if String.eqb a0 "--remote"
            then
              let! stdin' :=
                connectToRemoteServer a1 (flag_value "--config" args)
                  (flag_value "--username" args) (flag_value "--password" args)
                  stdin in
              chatLoop stdin'
            else emit (EvConsoleError "Invalid arguments. Use --help for usage information." None)
        | [] =>
            emit (EvConsoleError "Invalid arguments. Use --help for usage information." None)
        end
  end.

(** [main()] *)
Definition main (args : list string) (stdin : list string) : M unit :=
  try_finally
    (try_catch (main_try args stdin)
       (fun error => emit (EvConsoleError "Error:" (Some error))))
    (cleanup ;; process_exit 0).
End IndexAuth.
End IndexAuth.

(** ** Reading responses and traces *)
Section Observations.
Context `{JsonModel}.


Definition is_tool_use (b : ContentBlock) : bool :=
  match b with ToolUseBlock _ _ _ => true | _ => false end.

(** The values of the text blocks, in order. *)
Definition text_values (blocks : list ContentBlock) : list string :=
  flat_map (fun b => match b with TextBlock t => [t] | _ => [] end) blocks.

(** Name and arguments of the tool requests, in order. *)
Definition tool_requests (blocks : list ContentBlock) : list (string * option Json) :=
  flat_map (fun b => match b with ToolUseBlock n a _ => [(n, a)] | _ => [] end) blocks.

(** Correlation ids of the tool requests, in order. *)
Definition request_ids (blocks : list ContentBlock) : list string :=
  flat_map (fun b => match b with ToolUseBlock _ _ i => [i] | _ => [] end) blocks.

(** The tool calls a trace records. *)
Definition tool_calls (evs : list Event) : list (string * option Json) :=
  flat_map (fun e => match e with EvCallTool n a _ => [(n, a)] | _ => [] end) evs.

(** The transcripts a trace shows going to the model. *)
Definition transcripts (evs : list Event) : list (list MessageParam) :=
  flat_map (fun e => match e with EvBedrockSend cmd _ => [messages (body cmd)] | _ => [] end) evs.

(** The replies a trace shows coming back from the model. *)
Definition replies (evs : list Event) : list ModelResponse :=
  flat_map (fun e => match e with EvBedrockSend _ (Fulfilled f) => [f] | _ => [] end) evs.

(** Prompts shown on the terminal. *)
Definition prompts (evs : list Event) : list string :=
  flat_map (fun e => match e with
                     | EvQuestion p | EvMaskedPrompt p => [p]
                     | _ => []
                     end) evs.

(** Channels opened. *)
Definition connections (evs : list Event) : list StdioClientTransport :=
  flat_map (fun e => match e with EvConnect t _ => [t] | _ => [] end) evs.

(** The first content block of a reply when it is a text block. *)
Definition first_text (f : ModelResponse) : list string :=
  match response_content f with
  | TextBlock t :: _ => [t]
  | _ => []
  end.

(** A transcript tail made of request/result pairs whose ids agree. *)
Fixpoint correlated (ms : list MessageParam) : Prop :=
  match ms with
  | [] => True
  | {| role := assistant; message_content := BlockContent [ToolUseParam _ _ i] |}
      :: {| role := user; message_content := BlockContent [ToolResultParam i' _] |}
      :: rest => i = i' ∧ correlated rest
  | _ => False
  end.

(** Ids of the tool-result blocks of a transcript, in order. *)
Definition result_ids (ms : list MessageParam) : list string :=
  flat_map (fun msg => match message_content msg with
                       | BlockContent bs =>
                           flat_map (fun b => match b with
                                              | ToolResultParam i _ => [i]
                                              | _ => []
                                              end) bs
                       | TextContent _ => []
                       end) ms.

(** A stretch of trace in which each tool request of [reqs], in order, is
    one tool call that returns, followed at once by one model call that
    returns. *)
Fixpoint tool_rounds (reqs : list (string * option Json)) (evs : list Event) : Prop :=
  match reqs, evs with
  | [], [] => True
  | (n, a) :: reqs', EvCallTool n' a' (Fulfilled _) :: EvBedrockSend _ (Fulfilled _) :: evs' =>
      n = n' ∧ a = a' ∧ tool_rounds reqs' evs'
  | _, _ => False
  end.

(** The commands a trace shows going to the model. *)
Definition model_commands (evs : list Event) : list InvokeModelCommand :=
  flat_map (fun e => match e with EvBedrockSend cmd _ => [cmd] | _ => [] end) evs.

(** The files a trace shows being read. *)
Definition read_paths (evs : list Event) : list string :=
  flat_map (fun e => match e with EvReadFile p _ => [p] | _ => [] end) evs.

(** The lines [console.error] printed with the label [label]. *)
Definition errors_labelled (label : string) (evs : list Event) : list (option Exn) :=
  flat_map (fun e => match e with
                     | EvConsoleError l x => if String.eqb l label then [x] else []
                     | _ => []
                     end) evs.

(** The results a trace shows coming back from the tool server. *)
Definition tool_results (evs : list Event) : list ToolResult :=
  flat_map (fun e => match e with EvCallTool _ _ (Fulfilled r) => [r] | _ => [] end) evs.

(** Payloads of the tool-result blocks of a transcript, in order. *)
Definition result_payloads (ms : list MessageParam) : list Json :=
  flat_map (fun msg => match message_content msg with
                       | BlockContent bs =>
                           flat_map (fun b => match b with
                                              | ToolResultParam _ c => [c]
                                              | _ => []
                                              end) bs
                       | TextContent _ => []
                       end) ms.
End Observations.

(** ** Notions the properties are stated with *)
Section SpecNotions.
Context `{Runtime}.

(** The output buffer the specification describes: text blocks contribute
    their value; a tool request contributes its rendered line and then the
    first block of its follow-up reply when that is text; [followUps] are the
    follow-up replies, one per tool request. *)
Fixpoint expected_output (blocks : list ContentBlock) (followUps : list ModelResponse)
  : list string :=
  match blocks with
  | [] => []
  | TextBlock t :: rest => t :: expected_output rest followUps
  | ToolUseBlock n a _ :: rest =>
      match followUps with
      | f :: followUps' =>
          calling_tool_line n a :: first_text f ++ expected_output rest followUps'
      | [] => [calling_tool_line n a]
      end
  | OtherBlock _ :: rest => expected_output rest followUps
  end.


(** [m'] continues [m] without opening a channel, prompting, or touching
    [this]. *)
Definition quiet (m m' : Machine) : Prop :=
  ∃ evs, trace m' = trace m ++ evs
         ∧ connections evs = []
         ∧ prompts evs = []
         ∧ this m' = this m.

(** An entry that offers neither configuration style, as the source tests
    it. *)
Definition neither_style (e : MCPServerConfig) : Prop :=
  truthy (cfg_url e) = false
  ∧ (truthy (cfg_command e) = false ∨ cfg_args e = None).

(** The machine once [chatLoop] has created its interface and printed its
    two opening lines. *)
Definition started (m : Machine) : Machine :=
  logged (logged (logged m EvCreateInterface)
            (EvConsoleLog (LF +:+ "MCP Client Started with AWS Bedrock (using IAM role authentication)!")))
    (EvConsoleLog "Type your queries or 'quit' to exit.").

(** The machine once the loop has shown its prompt. *)
Definition prompted (m : Machine) : Machine :=
  logged m (EvQuestion (LF +:+ "Query: ")).

(** The events the conversation engine can produce when the session's tools
    are [tls]: tool calls, model calls built by [invokeClaudeModel] with those
    tools, and the error line of a rejected model call. *)
Definition engine_event (tls : list Tool) (e : Event) : Prop :=
  match e with
  | EvCallTool _ _ _ => True
  | EvBedrockSend cmd _ => ∃ msgs, cmd = model_command msgs (Some tls)
  | EvConsoleError l (Some _) => l = "Error invoking Bedrock model:"
  | _ => False
  end.

(** The events of the body of the interactive loop: those of the engine, the
    prompt, and printed answers. *)
Definition loop_event (tls : list Tool) (e : Event) : Prop :=
  match e with
  | EvQuestion p => p = LF +:+ "Query: "
  | EvConsoleLog _ => True
  | _ => engine_event tls e
  end.

(** The entry of [this.tools] that [connectWithTransport] makes of a listed
    tool. *)
Definition as_Tool (tool : ServerTool) : Tool :=
  {| tool_name := server_tool_name tool;
     tool_description := server_tool_description tool;
     input_schema := inputSchema tool |}.

(** The fixed parts of every request [invokeClaudeModel] builds. *)
Definition fixed_request (tls : list Tool) (cmd : InvokeModelCommand) : Prop :=
  modelId cmd = "anthropic.claude-3-sonnet-20240229-v1:0"
  ∧ contentType cmd = "application/json"
  ∧ anthropic_version (body cmd) = "bedrock-2023-05-31"
  ∧ max_tokens (body cmd) = 1000%Z
  ∧ tools (body cmd) = tls.

(** The message of the error for a server name the configuration lacks. *)
Definition not_found_message (serverName : string) : string :=
  "Server " +:+ DQUOTE +:+ serverName +:+ DQUOTE +:+ " not found in configuration".

(** A completion other than [process.exit]. *)
Definition no_exit {A} (r : Completion A) : Prop := ∀ code, r ≠ Halt (Exited code).


(** The command lines on which [main] goes on to connect: [--local] or
    [--remote] first, and at least one more argument. *)
Definition asks_to_connect (args : list string) : Prop :=
  ∃ flag target rest,
    args = flag :: target :: rest ∧ (flag = "--local" ∨ flag = "--remote").

(** The line [main] prints for a command line it does not understand. *)
Definition invalid_arguments : Event :=
  EvConsoleError "Invalid arguments. Use --help for usage information." None.

(** How a run of [main] can end: never by returning; by [process.exit] only
    with status 0, right after the connector was closed; by an exception only
    when closing the connector was rejected, with that rejection; or left
    waiting on a promise that never settles. *)
Definition ends_as_main (r : Machine * Completion unit) : Prop :=
  match r.2 with
  | Normal _ => False
  | Halt (Exited code) =>
      code = 0%Z ∧ ∃ before, trace r.1 = before ++ [EvClose (Fulfilled tt); EvExit 0]
  | Halt AwaitForever => True
  | Throw e => ∃ before, trace r.1 = before ++ [EvClose (Rejected e)]
  end.
End SpecNotions.

(** The sixteen spellings of [quit]. *)
Definition quit_spellings : list string :=
  q ← ["q"; "Q"]; u ← ["u"; "U"]; i ← ["i"; "I"]; t ← ["t"; "T"];
  [q +:+ u +:+ i +:+ t].

(** ** A scripted world

  A concrete runtime on which the client can be run: the model and the tool
  server answer from scripts, the file system is a finite map, and the
  parser knows the documents of the example files by their text. *)
Module Demo.
Definition json : JsonModel := {| Json := string; JSON_stringify := id |}.
#[local] Existing Instance json.

Record Scripted := {
  model_script : list (Settled ModelResponse);
  tool_script : list (Settled ToolResult);
  files : gmap string string;
}.

Definition send (cmd : InvokeModelCommand) (w : Scripted) : Scripted * Settled ModelResponse :=
  match model_script w with
  | r :: rest =>
      ({| model_script := rest; tool_script := tool_script w; files := files w |}, r)
  | [] => (w, Rejected (Error "no reply scripted"))
  end.

Definition callTool (name : string) (arguments : option string) (w : Scripted)
  : Scripted * Settled ToolResult :=
  match tool_script w with
  | r :: rest =>
      ({| model_script := model_script w; tool_script := rest; files := files w |}, r)
  | [] => (w, Rejected (Error "no result scripted"))
  end.

Definition docs_entry : MCPServerConfig :=
  {| cfg_command := Some "run-tool"; cfg_args := Some ["--port"; "8080"]; cfg_url := None |}.

Definition both_entry : MCPServerConfig :=
  {| cfg_command := Some "run-tool";
     cfg_args := Some ["--port"; "8080"];
     cfg_url := Some "https://example.test/mcp" |}.

Definition url_entry : MCPServerConfig :=
  {| cfg_command := None; cfg_args := None; cfg_url := Some "https://example.test/mcp" |}.

Definition bare_entry : MCPServerConfig :=
  {| cfg_command := None; cfg_args := None; cfg_url := None |}.

Definition blank_entry : MCPServerConfig :=
  {| cfg_command := Some ""; cfg_args := Some []; cfg_url := None |}.

Definition servers : gmap string MCPServerConfig :=
  <["docs" := docs_entry]> (<["both" := both_entry]> (<["gh" := url_entry]>
    (<["bare" := bare_entry]> (<["blank" := blank_entry]> ∅)))).

Definition parse (content : string) : Exn + MCPConfig :=
  if String.eqb content "servers" then inr {| mcpServers := Some servers |}
  else if String.eqb content "{}" then inr {| mcpServers := None |}
  else inl (SyntaxError "Unexpected token").

Definition runtime : Runtime := {|
  World := Scripted;
  bedrock_send := send;
  mcp_callTool := callTool;
  mcp_connect := fun _ w => (w, Fulfilled tt);
  mcp_listTools := fun w => (w, Fulfilled []);
  mcp_close := fun w => (w, Fulfilled tt);
  existsSync := fun p w => bool_decide (is_Some (files w !! p));
  readFile := fun p w =>
    (w, match files w !! p with
        | Some c => Fulfilled c
        | None => Rejected (Error "ENOENT")
        end);
  JSON_parse := parse;
  path_join := join "/";
  cwd := "/work";
  process_env := {[ "HOME" := "/home/dev" ]};
  platform := "linux";
  execPath := "/usr/bin/node";
  stdin_isTTY := false;
|}.
#[local] Existing Instance runtime.

Definition fresh_client : MCPClient := {| transport := None; this_tools := [] |}.

(** A machine at process start. *)
Definition boot (model : list (Settled ModelResponse)) (tool : list (Settled ToolResult))
    (fs : gmap string string) : Machine :=
  {| world := {| model_script := model; tool_script := tool; files := fs |};
     trace := [];
     this := fresh_client |}.

Definition text_reply (t : string) : ModelResponse :=
  {| response_content := [TextBlock t] |}.

Definition weather_request : ContentBlock :=
  ToolUseBlock "get_weather" (Some "{city:Oslo}") "toolu_01".

Definition time_request : ContentBlock :=
  ToolUseBlock "get_time" None "toolu_02".

Definition sunny : ToolResult := {| result_content := "sunny" |}.
Definition noon : ToolResult := {| result_content := "12:00" |}.

(** A reply with one tool request between two text blocks. *)
Definition one_tool_reply : ModelResponse :=
  {| response_content := [TextBlock "Let me check."; weather_request; TextBlock "Done."] |}.

(** A reply with two tool requests. *)
Definition two_tool_reply : ModelResponse :=
  {| response_content :=
       [TextBlock "Checking both."; weather_request; OtherBlock "thinking";
        time_request; TextBlock "Done."] |}.

(** A follow-up reply whose first block is not text. *)
Definition late_text_reply : ModelResponse :=
  {| response_content := [time_request; TextBlock "It is noon."] |}.

Definition empty_reply : ModelResponse := {| response_content := [] |}.

Definition world_of (model : list (Settled ModelResponse)) (tool : list (Settled ToolResult))
  : Scripted :=
  {| model_script := model; tool_script := tool; files := ∅ |}.

Definition m_one : Machine :=
  boot [Fulfilled one_tool_reply; Fulfilled (text_reply "It is sunny.")] [Fulfilled sunny] ∅.

Definition m_two : Machine :=
  boot [Fulfilled two_tool_reply; Fulfilled (text_reply "It is sunny.");
        Fulfilled late_text_reply]
    [Fulfilled sunny; Fulfilled noon] ∅.

Definition m_empty_follow_up : Machine :=
  boot [Fulfilled one_tool_reply; Fulfilled empty_reply] [Fulfilled sunny] ∅.

(** A machine whose current directory holds [.mcp.json] with garbage and
    [mcp-config.json] with the example servers. *)
Definition m_config : Machine :=
  boot [] [] (<["/work/.mcp.json" := "not json"]>
                (<["/work/mcp-config.json" := "servers"]> ∅)).

(** A machine whose model answers the first query and fails the second. *)
Definition m_second_query_fails : Machine :=
  boot [Fulfilled (text_reply "Hi!"); Rejected (Error "throttled")] [] ∅.

(** The transport [connectToLocalServer] builds for [server.py] here. *)
Definition py_transport : StdioClientTransport :=
  {| command := Some "python3"; args := ["server.py"]; env := None |}.

(** A world in which every call returns: the model always answers with one
    text block and every tool with the same result. *)
Definition steady : Runtime := {|
  World := unit;
  bedrock_send := fun _ w => (w, Fulfilled (text_reply "ok"));
  mcp_callTool := fun _ _ w => (w, Fulfilled sunny);
  mcp_connect := fun _ w => (w, Fulfilled tt);
  mcp_listTools := fun w => (w, Fulfilled []);
  mcp_close := fun w => (w, Fulfilled tt);
  existsSync := fun _ _ => false;
  readFile := fun _ w => (w, Rejected (Error "ENOENT"));
  JSON_parse := parse;
  path_join := join "/";
  cwd := "/work";
  process_env := ∅;
  platform := "win32";
  execPath := "node.exe";
  stdin_isTTY := true;
|}.

Definition m_steady : @Machine json steady :=
  @Build_Machine json steady tt [] fresh_client.


Definition weather_tool : ServerTool :=
  {| server_tool_name := "get_weather";
     server_tool_description := Some "Weather for a city";
     inputSchema := "{city:string}" |}.

Definition time_tool : ServerTool :=
  {| server_tool_name := "get_time"; server_tool_description := None; inputSchema := "{}" |}.

(** A world whose tool server lists two tools. *)
Definition listing : Runtime := {|
  World := unit;
  bedrock_send := fun _ w => (w, Fulfilled (text_reply "ok"));
  mcp_callTool := fun _ _ w => (w, Fulfilled sunny);
  mcp_connect := fun _ w => (w, Fulfilled tt);
  mcp_listTools := fun w => (w, Fulfilled [weather_tool; time_tool]);
  mcp_close := fun w => (w, Fulfilled tt);
  existsSync := fun _ _ => false;
  readFile := fun _ w => (w, Rejected (Error "ENOENT"));
  JSON_parse := parse;
  path_join := join "/";
  cwd := "/work";
  process_env := ∅;
  platform := "linux";
  execPath := "/usr/bin/node";
  stdin_isTTY := false;
|}.

(** A world whose tool server cannot be reached. *)
Definition refusing : Runtime := {|
  World := unit;
  bedrock_send := fun _ w => (w, Fulfilled (text_reply "ok"));
  mcp_callTool := fun _ _ w => (w, Fulfilled sunny);
  mcp_connect := fun _ w => (w, Rejected (Error "spawn ENOENT"));
  mcp_listTools := fun w => (w, Fulfilled []);
  mcp_close := fun w => (w, Fulfilled tt);
  existsSync := fun _ _ => false;
  readFile := fun _ w => (w, Rejected (Error "ENOENT"));
  JSON_parse := parse;
  path_join := join "/";
  cwd := "/work";
  process_env := ∅;
  platform := "linux";
  execPath := "/usr/bin/node";
  stdin_isTTY := false;
|}.

(** A client whose transport has been stored, in each of these worlds. *)
Definition with_transport : MCPClient :=
  {| transport := Some py_transport; this_tools := [] |}.

Definition m_listing : @Machine json listing :=
  @Build_Machine json listing tt [] with_transport.

Definition m_refusing : @Machine json refusing :=
  @Build_Machine json refusing tt [] with_transport.

(** [m_two] once the model has answered the query [both?]. *)
Definition m_two_replied : Machine :=
  sent m_two
    (world_of [Fulfilled (text_reply "It is sunny."); Fulfilled late_text_reply]
       [Fulfilled sunny; Fulfilled noon])
    (model_command (initial_messages "both?") (Some []))
    (Fulfilled two_tool_reply).
End Demo.

(** * Properties *)

(** ** Stepping the engine *)
Section EngineFacts.
Context `{RT : Runtime}.

Lemma invokeClaudeModel_eq msgs tls m :
  invokeClaudeModel msgs tls m =
    let cmd := model_command msgs tls in
    match bedrock_send cmd (world m) with
    | (w', Fulfilled f) => (sent m w' cmd (Fulfilled f), Normal f)
    | (w', Rejected e) =>
        (logged (sent m w' cmd (Rejected e))
           (EvConsoleError "Error invoking Bedrock model:" (Some e)),
         Throw (Error ("Failed to invoke Bedrock model: " +:+ exn_text e)))
    | (w', NeverSettles) => (sent m w' cmd NeverSettles, Halt AwaitForever)
    end.
Proof.
  unfold invokeClaudeModel, try_catch, call; cbn.
  destruct (bedrock_send _ _) as [w' [f|e|]]; reflexivity.
Qed.

Lemma processBlock_tool_eq st n a i m :
  processBlock st (ToolUseBlock n a i) m =
    match mcp_callTool n a (world m) with
    | (w1, Fulfilled result) =>
        let msgs := (qs_messages st ++ [tool_use_message n a i])
                      ++ [tool_result_message i result] in
        match invokeClaudeModel msgs (Some (this_tools (this m)))
                (called m w1 n a (Fulfilled result)) with
        | (m2, Normal f) =>
            match response_content f with
            | [] => (m2, Throw (TypeError "Cannot read properties of undefined (reading 'type')"))
            | _ :: _ =>
                (m2, Normal {| qs_messages := msgs;
                               finalText := (finalText st ++ [calling_tool_line n a])
                                              ++ first_text f;
                               toolResults := toolResults st ++ [result] |})
            end
        | (m2, Throw e) => (m2, Throw e)
        | (m2, Halt h) => (m2, Halt h)
        end
    | (w1, Rejected e) => (called m w1 n a (Rejected e), Throw e)
    | (w1, NeverSettles) => (called m w1 n a NeverSettles, Halt AwaitForever)
    end.
Proof.
  unfold processBlock, bind, call, get_this, called.
  destruct (mcp_callTool n a (world m)) as [w1 [result|e|]]; cbn; try reflexivity.
  destruct (invokeClaudeModel _ _ _) as [m2 [f|e|h]]; try reflexivity.
  unfold push_followUp, first_text.
  destruct (response_content f) as [|[t| |] bs]; cbn; try reflexivity;
    by rewrite app_nil_r.
Qed.

Lemma processContent_app l1 l2 st m :
  processContent st (l1 ++ l2) m =
    bind (processContent st l1) (fun st' => processContent st' l2) m.
Proof.
  revert st m. induction l1 as [|b l1 IH]; intros st m; cbn; [done|].
  unfold bind. destruct (processBlock st b m) as [m1 [st1|e|h]]; [apply IH|done..].
Qed.

Lemma processContent_no_tool blocks st m :
  forallb (fun b => negb (is_tool_use b)) blocks = true →
  processContent st blocks m =
    (m, Normal {| qs_messages := qs_messages st;
                  finalText := finalText st ++ text_values blocks;
                  toolResults := toolResults st |}).
Proof.
  revert st. induction blocks as [|b blocks IH]; intros st Hno; cbn.
  - rewrite app_nil_r. by destruct st.
  - cbn in Hno. apply andb_prop in Hno as [Hb Hrest].
    destruct b; try discriminate; unfold bind, processBlock, ret;
      rewrite IH by done; cbn; [by rewrite <- app_assoc | by destruct st].
Qed.



Lemma correlated_pair n a i result tl :
  correlated tl →
  correlated (tool_use_message n a i :: tool_result_message i result :: tl).
Proof. intros Htl. cbn. by split. Qed.

Lemma tool_rounds_replies reqs evs :
  tool_rounds reqs evs → length (replies evs) = length reqs.
Proof.
  revert evs. induction reqs as [|[n a] reqs IH]; intros evs; cbn.
  - by destruct evs.
  - intros Hr. repeat (case_match; try done); subst.
    destruct Hr as (_ & _ & Hrest). cbn. f_equal. by apply IH.
Qed.


Lemma tool_rounds_calls reqs evs :
  tool_rounds reqs evs → tool_calls evs = reqs.
Proof.
  revert evs. induction reqs as [|[n a] reqs IH]; intros evs; cbn.
  - by destruct evs.
  - intros Hr. repeat (case_match; try done); subst.
    destruct Hr as (-> & -> & Hrest). cbn. f_equal. by apply IH.
Qed.
(** What a completed run of the loop looks like. *)
Lemma processContent_normal blocks st m m' st' :
  processContent st blocks m = (m', Normal st') →
  ∃ evs,
    trace m' = trace m ++ evs
    ∧ this m' = this m
    ∧ tool_rounds (tool_requests blocks) evs
    ∧ finalText st' = finalText st ++ expected_output blocks (replies evs)
    ∧ Forall (fun f => response_content f ≠ []) (replies evs)
    ∧ ∃ tl, qs_messages st' = qs_messages st ++ tl
            ∧ correlated tl
            ∧ result_ids tl = request_ids blocks.
Proof.
  revert st m. induction blocks as [|b blocks IH]; intros st m; cbn [processContent].
  - intros [= <- <-]. exists []. rewrite !app_nil_r.
    repeat split; try done. exists []. by rewrite app_nil_r.
  - unfold bind. destruct b as [t|n a i|ty].
    + cbn. intros Hrun. apply IH in Hrun as (evs & Htr & Hthis & Hrounds & Hft & Hne & tl & Hmsgs & Hcor & Hids).
      exists evs. cbn in Hft, Hmsgs. rewrite <- app_assoc in Hft.
      repeat split; try done. by exists tl.
    + rewrite processBlock_tool_eq.
      destruct (mcp_callTool n a (world m)) as [w1 [result|e|]]; try done.
      cbv zeta. rewrite invokeClaudeModel_eq. cbv zeta. cbn [world called this].
      destruct (bedrock_send _ w1) as [w2 [f|e|]]; try done.
      destruct (response_content f) as [|b0 bs] eqn:Hf; try done.
      intros Hrun. apply IH in Hrun as (evs & Htr & Hthis & Hrounds & Hft & Hne & tl & Hmsgs & Hcor & Hids).
      eexists (EvCallTool n a (Fulfilled result) :: EvBedrockSend _ (Fulfilled f) :: evs).
      cbn in Htr, Hthis, Hft, Hmsgs. rewrite <- !app_assoc in Htr.
      rewrite <- !app_assoc in Hft. rewrite <- !app_assoc in Hmsgs.
      split; [exact Htr|]. split; [done|]. split; [by cbn|].
      split; [exact Hft|]. split.
      { cbn. constructor; [by rewrite Hf|done]. }
      exists (tool_use_message n a i :: tool_result_message i result :: tl).
      split; [exact Hmsgs|]. split; [by apply correlated_pair|].
      cbn. f_equal. exact Hids.
    + cbn. intros Hrun. apply IH in Hrun as (evs & ?). by exists evs.
Qed.

(** Every transcript the loop sends to the model, whether or not the run
    completes, is the starting transcript followed by request/result pairs
    with agreeing ids, the ids being those of the requests processed so
    far. *)
Lemma processContent_transcripts blocks st m :
  ∃ evs,
    trace (processContent st blocks m).1 = trace m ++ evs
    ∧ Forall (fun msgs => ∃ tl, msgs = qs_messages st ++ tl
                                ∧ correlated tl
                                ∧ result_ids tl `prefix_of` request_ids blocks)
        (transcripts evs).
Proof.
  revert st m. induction blocks as [|b blocks IH]; intros st m; cbn [processContent].
  - exists []. cbn. by rewrite app_nil_r.
  - unfold bind. destruct b as [t|n a i|ty].
    + cbn. destruct (IH {| qs_messages := qs_messages st;
                           finalText := finalText st ++ [t];
                           toolResults := toolResults st |} m) as (evs & Htr & Hall).
      exists evs. split; [exact Htr|]. exact Hall.
    + rewrite processBlock_tool_eq.
      destruct (mcp_callTool n a (world m)) as [w1 [result|e|]];
        [|eexists [_]; split; [reflexivity|by cbn]..].
      cbv zeta. rewrite invokeClaudeModel_eq. cbv zeta. cbn [world called this].
      set (msgs := (qs_messages st ++ [tool_use_message n a i])
                     ++ [tool_result_message i result]).
      assert (Hmsgs : ∃ tl, msgs = qs_messages st ++ tl ∧ correlated tl
                            ∧ result_ids tl `prefix_of` request_ids (ToolUseBlock n a i :: blocks)).
      { exists [tool_use_message n a i; tool_result_message i result].
        subst msgs. rewrite <- app_assoc. split; [done|]. split; [by cbn|].
        cbn. by exists (request_ids blocks). }
      destruct (bedrock_send _ w1) as [w2 [f|e|]].
      * destruct (response_content f) as [|b0 bs] eqn:Hf.
        { eexists [_; _]. cbn. rewrite <- app_assoc. split; [reflexivity|].
          constructor; [exact Hmsgs|constructor]. }
        match goal with
        | |- context [processContent ?s blocks ?mm] =>
            destruct (IH s mm) as (evs & Htr & Hall)
        end.
        eexists (_ :: _ :: evs). rewrite Htr. cbn. rewrite <- !app_assoc.
        split; [reflexivity|]. constructor; [exact Hmsgs|].
        eapply Forall_impl; [exact Hall|]. cbn. intros ms (tl & -> & Hcor & Hpre).
        exists (tool_use_message n a i :: tool_result_message i result :: tl).
        subst msgs. rewrite <- !app_assoc. split; [done|].
        split; [by apply correlated_pair|]. cbn. by apply prefix_cons.
      * eexists [_; _; _]. cbn. rewrite <- !app_assoc. split; [reflexivity|].
        constructor; [exact Hmsgs|constructor].
      * eexists [_; _]. cbn. rewrite <- !app_assoc. split; [reflexivity|].
        constructor; [exact Hmsgs|constructor].
    + cbn. destruct (IH st m) as (evs & Htr & Hall). by exists evs.
Qed.


(** Every transcript [processQuery] sends is the query followed by
    request/result pairs with agreeing ids; the trace only grows. *)
Lemma processQuery_transcripts (query : string) (m : Machine) :
  ∃ evs,
    trace (processQuery query m).1 = trace m ++ evs
    ∧ Forall (fun msgs => ∃ tl, msgs = initial_messages query ++ tl ∧ correlated tl)
        (transcripts evs).
Proof.
  unfold processQuery, bind, get_this. rewrite invokeClaudeModel_eq. cbv zeta.
  assert (Hfirst : ∃ tl, initial_messages query = initial_messages query ++ tl
                         ∧ correlated tl).
  { exists []. by rewrite app_nil_r. }
  destruct (bedrock_send _ (world m)) as [w1 [response|e|]].
  - match goal with
    | |- context [processContent ?s ?bs ?mm] =>
        destruct (processContent_transcripts bs s mm) as (evs & Htr & Hall);
        destruct (processContent s bs mm) as [m1 [st1|e|h]]
    end; cbn in Htr |- *; rewrite Htr, <- app_assoc;
      (eexists (_ :: evs); split; [reflexivity|]; cbn;
       constructor; [exact Hfirst|];
       eapply Forall_impl; [exact Hall|]; cbn; intros ms (tl & -> & Hcor & _);
       by exists tl).
  - eexists [_; _]. cbn. rewrite <- app_assoc. split; [reflexivity|].
    constructor; [exact Hfirst|constructor].
  - eexists [_]. cbn. split; [reflexivity|].
    constructor; [exact Hfirst|constructor].
Qed.

(** C3. The correlation id is never altered between request and result.
    Every transcript that [processQuery] sends to the model, in any run, is
    the user's query followed by request/result message pairs in which the
    result carries the id of the request before it; and when the loop
    completes, the ids of the result messages of its transcript are, in
    order, the ids of the tool requests of the model's reply. *)
Theorem C3_correlation_id_round_trip (query : string) (m : Machine) :
  (∃ evs,
     trace (processQuery query m).1 = trace m ++ evs
     ∧ Forall (fun msgs => ∃ tl, msgs = initial_messages query ++ tl ∧ correlated tl)
         (transcripts evs))
  ∧ (∀ blocks m' st',
       processContent (initial_state query) blocks m = (m', Normal st') →
       ∃ tl, qs_messages st' = initial_messages query ++ tl
             ∧ correlated tl
             ∧ result_ids tl = request_ids blocks).
Proof.
  split; [apply processQuery_transcripts|].
  intros blocks m' st' Hrun.
  apply processContent_normal in Hrun as (_ & _ & _ & _ & _ & _ & Htl). exact Htl.
Qed.

(** With a model whose calls always return a reply of at least one block, and
    a tool server whose calls always return, the loop completes. *)
Lemma processContent_returns :
  (∀ cmd w, ∃ w' f, bedrock_send cmd w = (w', Fulfilled f) ∧ response_content f ≠ []) →
  (∀ n a w, ∃ w' r, mcp_callTool n a w = (w', Fulfilled r)) →
  ∀ blocks st m, ∃ m' st', processContent st blocks m = (m', Normal st').
Proof.
  intros Hmodel Htool blocks.
  induction blocks as [|b blocks IH]; intros st m; cbn [processContent]; [by eexists _, _|].
  unfold bind. destruct b as [t|n a i|ty]; [apply IH| |apply IH].
  rewrite processBlock_tool_eq.
  destruct (Htool n a (world m)) as (w1 & r & ->). cbv zeta.
  rewrite invokeClaudeModel_eq. cbv zeta. cbn [world called this].
  match goal with
  | |- context [bedrock_send ?cmd w1] => destruct (Hmodel cmd w1) as (w2 & f & -> & Hne)
  end.
  destruct (response_content f) as [|b0 bs]; [done|]. apply IH.
Qed.

(** C4. With a model and a tool server whose calls always return (follow-up
    replies of at least one block), [processQuery] returns. Whenever it
    returns, the trace after the first model call consists of one round per
    tool request of the reply, in the order the model emitted them: the tool
    call with that request's name and arguments, followed at once by one
    follow-up model call, before the next request is touched; so N requests
    give N follow-up calls. The output is the newline-joined buffer in which
    every text block of the reply contributes its value and every tool
    request contributes its rendered line followed by the first block of its
    own follow-up reply when that block is text, and by nothing otherwise. *)
Theorem C4_one_follow_up_per_tool_request (query : string) (m : Machine) :
  ((∀ cmd w, ∃ w' f, bedrock_send cmd w = (w', Fulfilled f) ∧ response_content f ≠ []) →
   (∀ n a w, ∃ w' r, mcp_callTool n a w = (w', Fulfilled r)) →
   ∃ m' out, processQuery query m = (m', Normal out))
  ∧ (∀ m' out,
       processQuery query m = (m', Normal out) →
       ∃ response evs,
         trace m' =
           trace m
             ++ EvBedrockSend (model_command (initial_messages query)
                                 (Some (this_tools (this m))))
                  (Fulfilled response)
             :: evs
         ∧ tool_rounds (tool_requests (response_content response)) evs
         ∧ tool_calls evs = tool_requests (response_content response)
         ∧ length (replies evs) = length (tool_requests (response_content response))
         ∧ out = join LF (expected_output (response_content response) (replies evs))).
Proof.
  split.
  - intros Hmodel Htool.
    unfold processQuery, bind, get_this. rewrite invokeClaudeModel_eq. cbv zeta.
    match goal with
    | |- context [bedrock_send ?cmd ?w] => destruct (Hmodel cmd w) as (w1 & f & -> & _)
    end.
    match goal with
    | |- context [processContent ?s ?bs ?mm] =>
        destruct (processContent_returns Hmodel Htool bs s mm) as (m' & st' & ->)
    end.
    by eexists _, _.
  - intros m' out.
    unfold processQuery, bind, get_this. rewrite invokeClaudeModel_eq. cbv zeta.
    destruct (bedrock_send _ (world m)) as [w1 [response|e|]]; try done.
    destruct (processContent _ _ _) as [m1 [st1|e|h]] eqn:Hrun; try done.
    intros [= <- <-].
    apply processContent_normal in Hrun as (evs & Htr & _ & Hrounds & Hft & _ & _).
    exists response, evs. cbn in Htr, Hft. rewrite <- app_assoc in Htr.
    split; [exact Htr|]. split; [exact Hrounds|].
    split; [by apply tool_rounds_calls|].
    split; [by apply tool_rounds_replies|]. by rewrite Hft.
Qed.

(** C10. The first block of a follow-up reply is read unguarded. On a reply
    with at least one block the read is defined and the step completes; on
    a follow-up reply with no block the query ends in a [TypeError]; hence a
    query that returns normally had only follow-up replies with at least
    one block. *)
Theorem C10_follow_up_first_block_unguarded :
  (∀ (buffer : list string) (followUp : ModelResponse) (m : Machine),
     response_content followUp ≠ [] →
     ∃ buffer', push_followUp buffer followUp m = (m, Normal buffer'))
  ∧ (∀ (query : string) (m : Machine) (w1 w2 w3 : World) (response followUp : ModelResponse)
       (pre post : list ContentBlock) (n : string) (a : option Json) (i : string)
       (result : ToolResult),
       bedrock_send (model_command (initial_messages query) (Some (this_tools (this m))))
         (world m) = (w1, Fulfilled response) →
       response_content response = pre ++ ToolUseBlock n a i :: post →
       forallb (fun b => negb (is_tool_use b)) pre = true →
       mcp_callTool n a w1 = (w2, Fulfilled result) →
       bedrock_send
         (model_command
            (initial_messages query ++ [tool_use_message n a i; tool_result_message i result])
            (Some (this_tools (this m)))) w2 = (w3, Fulfilled followUp) →
       response_content followUp = [] →
       (processQuery query m).2
       = Throw (TypeError "Cannot read properties of undefined (reading 'type')"))
  ∧ (∀ (query : string) (m m' : Machine) (out : string),
       processQuery query m = (m', Normal out) →
       ∃ first evs,
         trace m' = trace m ++ first :: evs
         ∧ Forall (fun followUp => response_content followUp ≠ []) (replies evs)).
Proof.
  split; [|split].
  - intros buffer followUp m Hne. unfold push_followUp.
    destruct (response_content followUp) as [|[t| |] bs]; [done|by eexists..].
  - intros query m w1 w2 w3 response followUp pre post n a i result
      Hsend Hshape Hpre Htool Hfollow Hempty.
    unfold processQuery, bind, get_this. rewrite invokeClaudeModel_eq. cbv zeta.
    rewrite Hsend, Hshape, processContent_app. unfold bind.
    rewrite processContent_no_tool by done. cbn [processContent]. unfold bind.
    rewrite processBlock_tool_eq. cbn [world sent this]. rewrite Htool. cbv zeta.
    rewrite invokeClaudeModel_eq. cbv zeta.
    cbn [world called this qs_messages initial_state].
    rewrite <- app_assoc. cbn [app]. rewrite Hfollow, Hempty. reflexivity.
  - intros query m m' out.
    unfold processQuery, bind, get_this. rewrite invokeClaudeModel_eq. cbv zeta.
    destruct (bedrock_send _ (world m)) as [w1 [response|e|]]; try done.
    destruct (processContent _ _ _) as [m1 [st1|e|h]] eqn:Hrun; try done.
    intros [= <- <-].
    apply processContent_normal in Hrun as (evs & Htr & _ & _ & _ & Hne & _).
    eexists _, evs. cbn in Htr. rewrite <- app_assoc in Htr. split; [exact Htr|done].
Qed.
End EngineFacts.

Section EngineWitnesses.
#[local] Existing Instance Demo.json.
#[local] Existing Instance Demo.runtime.



Lemma C3_witness :
  ∃ st' tl,
    qs_messages st' = initial_messages "both?" ++ tl
    ∧ correlated tl
    ∧ result_ids tl = ["toolu_01"; "toolu_02"].
Proof.
  eexists.
  eapply (proj2 (C3_correlation_id_round_trip (RT := Demo.runtime) "both?"
                   (sent Demo.m_two
                      (Demo.world_of [Fulfilled (Demo.text_reply "It is sunny.");
                                      Fulfilled Demo.late_text_reply]
                         [Fulfilled Demo.sunny; Fulfilled Demo.noon])
                      (model_command (initial_messages "both?") (Some []))
                      (Fulfilled Demo.two_tool_reply)))
            (response_content Demo.two_tool_reply)).
  vm_compute. reflexivity.
Defined.

Lemma C4_witness :
  (∃ m' out, @processQuery Demo.json Demo.steady "both?" Demo.m_steady = (m', Normal out))
  ∧ ∃ response evs,
      trace (processQuery "both?" Demo.m_two).1 =
        trace Demo.m_two
          ++ EvBedrockSend (model_command (initial_messages "both?") (Some []))
               (Fulfilled response)
          :: evs
      ∧ tool_rounds (tool_requests (response_content response)) evs
      ∧ tool_calls evs = tool_requests (response_content response)
      ∧ length (replies evs) = length (tool_requests (response_content response))
      ∧ join LF ["Checking both.";
                 "[Calling tool get_weather with args {city:Oslo}]";
                 "It is sunny.";
                 "[Calling tool get_time with args undefined]";
                 "Done."]
        = join LF (expected_output (response_content response) (replies evs)).
Proof.
  split.
  - apply (proj1 (C4_one_follow_up_per_tool_request (RT := Demo.steady)
                    "both?" Demo.m_steady)).
    + intros cmd w. exists w, (Demo.text_reply "ok"). split; [reflexivity|discriminate].
    + intros n a w. exists w, Demo.sunny. reflexivity.
  - apply (proj2 (C4_one_follow_up_per_tool_request (RT := Demo.runtime)
                    "both?" Demo.m_two)
             (processQuery "both?" Demo.m_two).1).
    vm_compute. reflexivity.
Defined.

Lemma C10_witness :
  (∃ buffer', push_followUp ["so far"] (Demo.text_reply "It is sunny.") Demo.m_one
              = (Demo.m_one, Normal buffer'))
  ∧ (processQuery "weather?" Demo.m_empty_follow_up).2
    = Throw (TypeError "Cannot read properties of undefined (reading 'type')")
  ∧ ∃ first evs,
      trace (processQuery "both?" Demo.m_two).1 = trace Demo.m_two ++ first :: evs
      ∧ Forall (fun followUp => response_content followUp ≠ []) (replies evs).
Proof.
  split; [|split].
  - apply (proj1 (C10_follow_up_first_block_unguarded (RT := Demo.runtime))). discriminate.
  - exact (proj1 (proj2 (C10_follow_up_first_block_unguarded (RT := Demo.runtime)))
             "weather?" Demo.m_empty_follow_up
             (Demo.world_of [Fulfilled Demo.empty_reply] [Fulfilled Demo.sunny])
             (Demo.world_of [Fulfilled Demo.empty_reply] [])
             (Demo.world_of [] [])
             Demo.one_tool_reply Demo.empty_reply
             [TextBlock "Let me check."] [TextBlock "Done."]
             "get_weather" (Some "{city:Oslo}") "toolu_01" Demo.sunny
             eq_refl eq_refl eq_refl eq_refl eq_refl eq_refl).
  - eapply (proj2 (proj2 (C10_follow_up_first_block_unguarded (RT := Demo.runtime)))
              "both?" Demo.m_two (processQuery "both?" Demo.m_two).1).
    vm_compute. reflexivity.
Defined.
End EngineWitnesses.

(** ** Connecting *)
Section ConnectorFacts.
Context `{RT : Runtime}.

Lemma endsWith_js_not_py s : endsWith s ".js" = true → endsWith s ".py" = false.
Proof.
  unfold endsWith. intros [_ Hjs]%andb_prop. apply String.eqb_eq in Hjs.
  cbn [String.length] in *. rewrite Hjs. cbn. by rewrite andb_false_r.
Qed.

(** The connection proper: the channel is opened first, with the transport
    given; nothing later opens another or prompts, and [this.transport] is
    left as it was. *)
Lemma register_tools_shape t m :
  ∃ r evs,
    trace (register_tools t m).1 = trace m ++ EvConnect t r :: evs
    ∧ connections evs = []
    ∧ prompts evs = []
    ∧ transport (this (register_tools t m).1) = transport (this m).
Proof.
  unfold register_tools, bind, call, get_this, set_this, emit.
  destruct (mcp_connect t (world m)) as [w1 [[]|e|]]; cbn;
    [|by eexists _, []..].
  destruct (mcp_listTools w1) as [w2 [tls|e|]]; cbn;
    rewrite <- ?app_assoc; by eexists _, _.
Qed.

Lemma Index_connectWithTransport_shape t m :
  transport (this m) = Some t →
  ∃ r evs,
    trace (Index.connectWithTransport m).1 = trace m ++ EvConnect t r :: evs
    ∧ connections evs = []
    ∧ prompts evs = []
    ∧ transport (this (Index.connectWithTransport m).1) = Some t.
Proof.
  intros Ht. unfold Index.connectWithTransport, bind, get_this. rewrite Ht.
  destruct (register_tools_shape t m) as (r & evs & Htr & Hc & Hp & Hthis).
  exists r, evs. by rewrite Hthis.
Qed.

Lemma IndexAuth_connectWithTransport_shape t m :
  transport (this m) = Some t →
  ∃ r evs,
    trace (IndexAuth.connectWithTransport m).1 = trace m ++ EvConnect t r :: evs
    ∧ connections evs = []
    ∧ prompts evs = []
    ∧ transport (this (IndexAuth.connectWithTransport m).1) = Some t.
Proof.
  intros Ht. unfold IndexAuth.connectWithTransport, bind, get_this, try_catch. rewrite Ht.
  destruct (register_tools_shape t m) as (r & evs & Htr & Hc & Hp & Hthis).
  destruct (register_tools t m) as [m1 [[]|e|h]]; cbn in *.
  - exists r, evs. by rewrite Hthis.
  - exists r, (evs ++ [EvConsoleError "Failed to connect to MCP server:" (Some e)]).
    rewrite Htr, <- app_assoc. unfold connections, prompts in *.
    rewrite !flat_map_app, Hc, Hp, Hthis. done.
  - exists r, evs. by rewrite Hthis.
Qed.

(** C6. A script path that ends neither in [.js] nor in [.py] makes
    [connectToLocalServer] throw and leaves the machine as it was: no
    transport is stored and no channel is opened. For [.py] the launcher is
    [python] on win32 and [python3] elsewhere, for [.js] it is the running
    node executable; the script path is the only argument, and the channel
    is opened with exactly that transport. Both source files agree. *)
Theorem C6_local_script_kind (serverScriptPath : string) (m : Machine) :
  (endsWith serverScriptPath ".js" = false →
   endsWith serverScriptPath ".py" = false →
   Index.connectToLocalServer serverScriptPath m
     = (m, Throw (Error "Server script must be a .js or .py file"))
   ∧ IndexAuth.connectToLocalServer serverScriptPath m
     = (m, Throw (Error "Server script must be a .js or .py file")))
  ∧ (∀ launcher,
       (endsWith serverScriptPath ".py" = true
        ∧ launcher = (if String.eqb platform "win32" then "python" else "python3"))
       ∨ (endsWith serverScriptPath ".js" = true ∧ launcher = execPath) →
       let t := {| command := Some launcher; args := [serverScriptPath]; env := None |} in
       (∃ r evs,
          trace (Index.connectToLocalServer serverScriptPath m).1
            = trace m ++ EvConnect t r :: evs
          ∧ connections evs = []
          ∧ transport (this (Index.connectToLocalServer serverScriptPath m).1) = Some t)
       ∧ (∃ r evs,
            trace (IndexAuth.connectToLocalServer serverScriptPath m).1
              = trace m ++ EvConnect t r :: evs
            ∧ connections evs = []
            ∧ transport (this (IndexAuth.connectToLocalServer serverScriptPath m).1)
              = Some t)).
Proof.
  split.
  - intros Hjs Hpy.
    unfold Index.connectToLocalServer, IndexAuth.connectToLocalServer,
      connectToLocalServer_with, local_command, bind.
    by rewrite Hjs, Hpy.
  - intros launcher Hkind t.
    assert (Hcmd : local_command serverScriptPath m = (m, Normal launcher)).
    { unfold local_command.
      destruct Hkind as [[Hpy ->]|[Hjs ->]].
      - rewrite Hpy. by rewrite andb_false_r.
      - rewrite Hjs, (endsWith_js_not_py _ Hjs). done. }
    unfold Index.connectToLocalServer, IndexAuth.connectToLocalServer,
      connectToLocalServer_with, bind. rewrite Hcmd. cbn.
    set (m1 := {| world := world m; trace := trace m; this := _ |}).
    split.
    + destruct (Index_connectWithTransport_shape t m1 eq_refl)
        as (r & evs & Htr & Hc & _ & Hthis).
      by exists r, evs.
    + destruct (IndexAuth_connectWithTransport_shape t m1 eq_refl)
        as (r & evs & Htr & Hc & _ & Hthis).
      by exists r, evs.
Qed.

Lemma quiet_refl m : quiet m m.
Proof. exists []. by rewrite app_nil_r. Qed.

Lemma quiet_trans m1 m2 m3 : quiet m1 m2 → quiet m2 m3 → quiet m1 m3.
Proof.
  intros (e1 & Ht1 & Hc1 & Hp1 & Hs1) (e2 & Ht2 & Hc2 & Hp2 & Hs2).
  exists (e1 ++ e2). rewrite Ht2, Ht1, app_assoc. unfold connections, prompts in *.
  rewrite !flat_map_app, Hc1, Hc2, Hp1, Hp2. split; [done|]. split; [done|].
  split; [done|]. congruence.
Qed.

Lemma try_path_quiet p m : quiet m (try_path p m).1.
Proof.
  unfold try_path, try_catch, bind, peek, call, emit.
  destruct (existsSync p (world m)); cbn; [|apply quiet_refl].
  destruct (readFile p (world m)) as [w1 [content|e|]]; cbn.
  - destruct (JSON_parse content) as [e|config]; cbn.
    + eexists [_; _]. by rewrite <- app_assoc.
    + by eexists [_].
  - eexists [_; _]. by rewrite <- app_assoc.
  - by eexists [_].
Qed.

Lemma loadConfig_from_quiet paths m : quiet m (loadConfig_from paths m).1.
Proof.
  revert m. induction paths as [|p paths IH]; intros m; cbn; [apply quiet_refl|].
  unfold bind. pose proof (try_path_quiet p m) as Hq.
  destruct (try_path p m) as [m1 [[config|]|e|h]]; cbn in *; try done.
  eapply quiet_trans; [exact Hq|apply IH].
Qed.

Lemma lookup_server_quiet serverName configPath m :
  quiet m (lookup_server serverName configPath m).1.
Proof.
  unfold lookup_server, loadConfig, bind.
  pose proof (loadConfig_from_quiet
                (if truthy configPath then [default "" configPath] else defaultPaths) m) as Hq.
  destruct (loadConfig_from _ m) as [m1 [config|e|h]]; cbn in *; try done.
  destruct (mcpServers config ≫= _) as [serverConfig|]; cbn; [|done].
  eapply quiet_trans; [exact Hq|]. by eexists [_].
Qed.

(** C7 (as amended). Once the named entry has been found, which opens no
    channel and prompts for nothing: an entry with neither a non-empty
    [url] nor a non-empty [command] together with [args] makes
    [connectToRemoteServer] throw the configuration error at once, nothing
    opened; an entry with a non-empty [url] is handled without looking at
    [command] and [args], also when they are present, and with both
    credentials supplied it opens [npx mcp-remote url] with the credentials
    in the environment; an entry without [url] but with a non-empty
    [command] and [args] prints the command line and opens exactly that
    command with exactly those arguments, with no prompt at all and
    standard input untouched. *)
Theorem C7_remote_entry_styles
    (serverName : string) (configPath username password : option string)
    (stdin : list string) (m m1 : Machine) (e : MCPServerConfig) :
  lookup_server serverName configPath m = (m1, Normal e) →
  quiet m m1
  ∧ (neither_style e →
     IndexAuth.connectToRemoteServer serverName configPath username password stdin m
     = (m1, Throw (Error "Invalid server configuration: missing url or command/args")))
  ∧ (truthy (cfg_url e) = true →
     IndexAuth.connect_serverConfig e username password stdin m1
     = IndexAuth.connect_serverConfig
         {| cfg_command := None; cfg_args := None; cfg_url := cfg_url e |}
         username password stdin m1
     ∧ ∀ url u p,
         cfg_url e = Some url → username = Some u → password = Some p →
         truthy username = true → truthy password = true →
         ∃ r evs,
           trace (IndexAuth.connectToRemoteServer serverName configPath
                    username password stdin m).1
           = trace m1
               ++ EvConsoleLog ("Using mcp-remote to connect to: " +:+ url)
               :: EvConnect {| command := Some "npx";
                               args := ["mcp-remote"; url];
                               env := Some (<["GITHUB_TOKEN" := p]>
                                              (<["GITHUB_USERNAME" := u]> process_env)) |} r
               :: evs
           ∧ connections evs = [] ∧ prompts evs = [])
  ∧ (∀ c a,
       truthy (cfg_url e) = false →
       cfg_command e = Some c → c ≠ "" → cfg_args e = Some a →
       let run := IndexAuth.connectToRemoteServer serverName configPath
                    username password stdin m in
       (∃ r evs,
          trace run.1
          = trace m1
              ++ EvConsoleLog ("Command: " +:+ c +:+ " " +:+ join " " a)
              :: EvConnect {| command := Some c; args := a; env := None |} r
              :: evs
          ∧ connections evs = [] ∧ prompts evs = [])
       ∧ ∀ m' rest, run = (m', Normal rest) → rest = stdin).
Proof.
  intros Hlookup.
  assert (Hrun : IndexAuth.connectToRemoteServer serverName configPath
                   username password stdin m
                 = IndexAuth.connect_serverConfig e username password stdin m1).
  { unfold IndexAuth.connectToRemoteServer, bind. by rewrite Hlookup. }
  split; [|split; [|split]].
  - pose proof (lookup_server_quiet serverName configPath m) as Hq.
    by rewrite Hlookup in Hq.
  - intros [Hurl Hcmd]. rewrite Hrun. unfold IndexAuth.connect_serverConfig.
    rewrite Hurl. destruct Hcmd as [Hc| ->]; [|done].
    rewrite Hc. by destruct (cfg_args e).
  - intros Hurl. split.
    + unfold IndexAuth.connect_serverConfig. cbn [cfg_url]. by rewrite Hurl.
    + intros url u p Heu -> -> Hu Hp. rewrite Hrun.
      unfold IndexAuth.connect_serverConfig, IndexAuth.given_or_prompt.
      rewrite Hurl, Heu. unfold bind at 1. rewrite Hu. unfold ret at 1.
      unfold bind at 1. rewrite Hp. unfold ret at 1.
      unfold bind, emit, get_this, set_this. cbn -[IndexAuth.connectWithTransport].
      match goal with
      | |- context [IndexAuth.connectWithTransport ?mm] =>
          destruct (IndexAuth_connectWithTransport_shape _ mm eq_refl)
            as (r & evs & Htr & Hc & Hpr & _);
          destruct (IndexAuth.connectWithTransport mm) as [m2 [[]|ex|h]]
      end; cbn in *; rewrite Htr, <- app_assoc; by exists r, evs.
  - intros c a Hurl Hc Hne Ha run. subst run. rewrite Hrun.
    unfold IndexAuth.connect_serverConfig. rewrite Hurl, Ha, Hc.
    assert (Htruthy : truthy (Some c) = true).
    { cbn. destruct (String.eqb_spec c ""); done. }
    rewrite Htruthy. unfold bind, emit, get_this, set_this.
    cbn -[IndexAuth.connectWithTransport].
    match goal with
    | |- context [IndexAuth.connectWithTransport ?mm] =>
        destruct (IndexAuth_connectWithTransport_shape _ mm eq_refl)
          as (r & evs & Htr & Hcn & Hpr & _);
        destruct (IndexAuth.connectWithTransport mm) as [m2 [[]|ex|h]]
    end; cbn in *; rewrite Htr, <- app_assoc;
      (split; [by exists r, evs|]); intros m' rest [=]; done.
Qed.




End ConnectorFacts.

(** ** The interactive loop *)
Section ShellFacts.
Context `{RT : Runtime}.

Lemma lower_ascii_q c : lower_ascii c = "q"%char → c = "q"%char ∨ c = "Q"%char.
Proof. destruct c as [[] [] [] [] [] [] [] []]; vm_compute; intros [=]; auto. Qed.

Lemma lower_ascii_u c : lower_ascii c = "u"%char → c = "u"%char ∨ c = "U"%char.
Proof. destruct c as [[] [] [] [] [] [] [] []]; vm_compute; intros [=]; auto. Qed.

Lemma lower_ascii_i c : lower_ascii c = "i"%char → c = "i"%char ∨ c = "I"%char.
Proof. destruct c as [[] [] [] [] [] [] [] []]; vm_compute; intros [=]; auto. Qed.

Lemma lower_ascii_t c : lower_ascii c = "t"%char → c = "t"%char ∨ c = "T"%char.
Proof. destruct c as [[] [] [] [] [] [] [] []]; vm_compute; intros [=]; auto. Qed.

(** A line lower-cases to [quit] exactly when it is one of the sixteen
    spellings. *)
Lemma toLowerCase_quit line :
  toLowerCase line = "quit" ↔ In line quit_spellings.
Proof.
  split.
  - destruct line as [|c1 [|c2 [|c3 [|c4 [|c5 line]]]]]; cbn; try discriminate.
    intros [= H1 H2 H3 H4].
    apply lower_ascii_q in H1 as [-> | ->]; apply lower_ascii_u in H2 as [-> | ->];
      apply lower_ascii_i in H3 as [-> | ->]; apply lower_ascii_t in H4 as [-> | ->];
      vm_compute; tauto.
  - intros Hin. vm_compute in Hin.
    repeat (destruct Hin as [<- | Hin]; [reflexivity|]). destruct Hin.
Qed.

Lemma not_quit line : ¬ In line quit_spellings → String.eqb (toLowerCase line) "quit" = false.
Proof.
  intros Hnot. apply String.eqb_neq. intros Heq. by apply Hnot, toLowerCase_quit.
Qed.

Lemma chatLoop_while_step line rest m :
  ¬ In line quit_spellings →
  chatLoop_while (line :: rest) m =
    match processQuery line (prompted m) with
    | (m1, Normal response) => chatLoop_while rest (logged m1 (EvConsoleLog (LF +:+ response)))
    | (m1, Throw e) => (m1, Throw e)
    | (m1, Halt h) => (m1, Halt h)
    end.
Proof.
  intros Hnot. cbn [chatLoop_while]. unfold bind at 1. cbn [emit].
  rewrite (not_quit _ Hnot).
  change {| world := world m;
            trace := trace m ++ [EvQuestion (LF +:+ "Query: ")];
            this := this m |} with (prompted m).
  unfold bind at 1.
  destruct (processQuery line (prompted m)) as [m1 [response|e|h]]; reflexivity.
Qed.

(** C9. A line that is [quit] in any letter-casing (one of the sixteen
    spellings, which are exactly the lines that lower-case to [quit]) ends
    the loop right after the prompt: the trace gains the prompt and nothing
    else, so the engine is not invoked, and [chatLoop] closes its interface
    and returns. Any other line is handed to [processQuery] as it is; when
    that returns, its answer is printed after a newline and the loop goes on
    with the next line. *)
Theorem C9_quit_ends_the_loop (line : string) (rest : list string) (m : Machine) :
  (In line quit_spellings ↔ toLowerCase line = "quit")
  ∧ (In line quit_spellings →
     chatLoop_while (line :: rest) m = (prompted m, Normal tt)
     ∧ chatLoop (line :: rest) m = (logged (prompted (started m)) EvRlClose, Normal tt))
  ∧ (¬ In line quit_spellings →
     chatLoop_while (line :: rest) m =
       match processQuery line (prompted m) with
       | (m1, Normal response) =>
           chatLoop_while rest (logged m1 (EvConsoleLog (LF +:+ response)))
       | (m1, Throw e) => (m1, Throw e)
       | (m1, Halt h) => (m1, Halt h)
       end).
Proof.
  split; [by rewrite toLowerCase_quit|]. split.
  - intros Hquit. apply toLowerCase_quit in Hquit.
    assert (Hloop : ∀ m0, chatLoop_while (line :: rest) m0 = (prompted m0, Normal tt)).
    { intros m0. cbn [chatLoop_while]. unfold bind at 1. cbn [emit].
      by rewrite Hquit. }
    split; [apply Hloop|].
    unfold chatLoop, try_finally, bind at 1. cbn [emit].
    unfold bind at 1. cbn [emit]. unfold bind at 1. cbn [emit].
    fold (logged m EvCreateInterface).
    by rewrite Hloop.
  - apply chatLoop_while_step.
Qed.

Lemma chatLoop_while_extends stdin m :
  ∃ evs, trace (chatLoop_while stdin m).1 = trace m ++ evs.
Proof.
  revert m. induction stdin as [|line rest IH]; intros m.
  - by eexists [_].
  - destruct (String.eqb (toLowerCase line) "quit") eqn:Hq.
    + cbn [chatLoop_while]. unfold bind at 1. cbn [emit]. rewrite Hq. by eexists [_].
    + rewrite chatLoop_while_step
        by (rewrite <- toLowerCase_quit; intros Heq; by rewrite Heq in Hq).
      destruct (processQuery_transcripts line (prompted m)) as (evs & Htr & _).
      destruct (processQuery line (prompted m)) as [m1 [response|e|h]]; cbn in Htr.
      * destruct (IH (logged m1 (EvConsoleLog (LF +:+ response)))) as (evs' & Htr').
        rewrite Htr'. cbn. rewrite Htr, <- !app_assoc. by eexists.
      * cbn. rewrite Htr, <- app_assoc. by eexists.
      * cbn. rewrite Htr, <- app_assoc. by eexists.
Qed.

(** C5 (as amended). A rejected model call makes [processQuery] throw after
    that single call, with no retry. An exception of [processQuery] is not
    caught by the loop: [chatLoop_while] ends with it at once, so no further
    prompt is shown and no further line is read; [chatLoop] closes its
    interface and rethrows; [main] of [index_auth.ts] prints the error once,
    closes the connector and exits the process with status 0. What had been
    printed before stays: the loop only ever appends to the trace. *)
Theorem C5_gateway_failure_ends_the_session :
  (∀ query m w1 e,
     bedrock_send (model_command (initial_messages query) (Some (this_tools (this m))))
       (world m) = (w1, Rejected e) →
     processQuery query m
     = (logged (sent m w1 (model_command (initial_messages query)
                             (Some (this_tools (this m)))) (Rejected e))
          (EvConsoleError "Error invoking Bedrock model:" (Some e)),
        Throw (Error ("Failed to invoke Bedrock model: " +:+ exn_text e))))
  ∧ (∀ line rest m m1 e,
       ¬ In line quit_spellings →
       processQuery line (prompted m) = (m1, Throw e) →
       chatLoop_while (line :: rest) m = (m1, Throw e))
  ∧ (∀ stdin m m1 e,
       chatLoop_while stdin (started m) = (m1, Throw e) →
       chatLoop stdin m = (logged m1 EvRlClose, Throw e))
  ∧ (∀ args stdin m m1 e w2,
       IndexAuth.main_try args stdin m = (m1, Throw e) →
       mcp_close (world m1) = (w2, Fulfilled tt) →
       IndexAuth.main args stdin m
       = ({| world := w2;
             trace := trace m1 ++ [EvConsoleError "Error:" (Some e);
                                   EvClose (Fulfilled tt);
                                   EvExit 0];
             this := this m1 |},
          Halt (Exited 0)))
  ∧ (∀ stdin m, ∃ evs, trace (chatLoop_while stdin m).1 = trace m ++ evs).
Proof.
  split; [|split; [|split; [|split]]].
  - intros query m w1 e Hsend. unfold processQuery, bind, get_this.
    rewrite invokeClaudeModel_eq. cbv zeta. by rewrite Hsend.
  - intros line rest m m1 e Hnot Hthrow.
    by rewrite chatLoop_while_step, Hthrow.
  - intros stdin m m1 e Hloop.
    unfold chatLoop, try_finally, bind at 1. cbn [emit].
    unfold bind at 1. cbn [emit]. unfold bind at 1. cbn [emit].
    change (chatLoop_while stdin _) with (chatLoop_while stdin (started m)).
    by rewrite Hloop.
  - intros args stdin m m1 e w2 Htry Hclose.
    unfold IndexAuth.main, try_finally, try_catch. rewrite Htry.
    unfold cleanup, process_exit, bind, call, emit, halt. cbn.
    rewrite Hclose. cbn. by rewrite <- !app_assoc.
  - apply chatLoop_while_extends.
Qed.
End ShellFacts.

(** ** The properties at work on the scripted world *)
Section ScriptedRuns.
#[local] Existing Instance Demo.json.
#[local] Existing Instance Demo.runtime.

(** C5, as stated, fails: the model answers the first query and rejects the
    second one; the session shows two prompts for four lines of input,
    never prompts again after the failure, and the process exits. *)
Lemma C5_counterexample :
  IndexAuth.main ["--local"; "server.py"] ["hello"; "again"; "more"; "quit"]
    Demo.m_second_query_fails
  = ({| world := Demo.world_of [] [];
        trace :=
          [EvConnect Demo.py_transport (Fulfilled tt);
           EvListTools (Fulfilled []);
           EvConsoleLogTools "Connected to server with tools:" [];
           EvCreateInterface;
           EvConsoleLog (LF +:+ "MCP Client Started with AWS Bedrock (using IAM role authentication)!");
           EvConsoleLog "Type your queries or 'quit' to exit.";
           EvQuestion (LF +:+ "Query: ");
           EvBedrockSend (model_command (initial_messages "hello") (Some []))
             (Fulfilled (Demo.text_reply "Hi!"));
           EvConsoleLog (LF +:+ "Hi!");
           EvQuestion (LF +:+ "Query: ");
           EvBedrockSend (model_command (initial_messages "again") (Some []))
             (Rejected (Error "throttled"));
           EvConsoleError "Error invoking Bedrock model:" (Some (Error "throttled"));
           EvRlClose;
           EvConsoleError "Error:"
             (Some (Error "Failed to invoke Bedrock model: throttled"));
           EvClose (Fulfilled tt);
           EvExit 0];
        this := {| transport := Some Demo.py_transport; this_tools := [] |} |},
     Halt (Exited 0)).
Proof. vm_compute. reflexivity. Qed.

Lemma C5_witness :
  IndexAuth.main ["--local"; "server.py"] ["hello"; "again"; "more"; "quit"]
    Demo.m_second_query_fails
  = ({| world := Demo.world_of [] [];
        trace :=
          trace (IndexAuth.main_try ["--local"; "server.py"]
                   ["hello"; "again"; "more"; "quit"] Demo.m_second_query_fails).1
            ++ [EvConsoleError "Error:"
                  (Some (Error "Failed to invoke Bedrock model: throttled"));
                EvClose (Fulfilled tt);
                EvExit 0];
        this :=
          this (IndexAuth.main_try ["--local"; "server.py"]
                  ["hello"; "again"; "more"; "quit"] Demo.m_second_query_fails).1 |},
     Halt (Exited 0)).
Proof.
  apply (proj1 (proj2 (proj2 (proj2
           (C5_gateway_failure_ends_the_session (RT := Demo.runtime)))))).
  - vm_compute. reflexivity.
  - vm_compute. reflexivity.
Defined.

Lemma C6_witness :
  (Index.connectToLocalServer "server.rb" Demo.m_one
   = (Demo.m_one, Throw (Error "Server script must be a .js or .py file"))
   ∧ IndexAuth.connectToLocalServer "server.rb" Demo.m_one
     = (Demo.m_one, Throw (Error "Server script must be a .js or .py file")))
  ∧ ∃ r evs,
      trace (Index.connectToLocalServer "server.py" Demo.m_one).1
      = trace Demo.m_one ++ EvConnect Demo.py_transport r :: evs
      ∧ connections evs = []
      ∧ transport (this (Index.connectToLocalServer "server.py" Demo.m_one).1)
        = Some Demo.py_transport.
Proof.
  split.
  - exact (proj1 (C6_local_script_kind (RT := Demo.runtime) "server.rb" Demo.m_one)
             eq_refl eq_refl).
  - exact (proj1 (proj2 (C6_local_script_kind (RT := Demo.runtime) "server.py" Demo.m_one)
                    "python3" (or_introl (conj eq_refl eq_refl)))).
Defined.

(** C7, as stated, fails: an entry with both styles present is accepted and
    served through its [url]; and an entry whose [command] is present but
    empty, with [args] present and no [url], is rejected. *)
Lemma C7_counterexample :
  (Demo.servers !! "both" = Some Demo.both_entry
   ∧ is_Some (cfg_url Demo.both_entry)
   ∧ is_Some (cfg_command Demo.both_entry)
   ∧ is_Some (cfg_args Demo.both_entry)
   ∧ (IndexAuth.connectToRemoteServer "both" None (Some "dev") (Some "secret") []
        Demo.m_config).2 = Normal []
   ∧ connections
       (trace (IndexAuth.connectToRemoteServer "both" None (Some "dev") (Some "secret") []
                 Demo.m_config).1)
     = [{| command := Some "npx";
           args := ["mcp-remote"; "https://example.test/mcp"];
           env := Some (<["GITHUB_TOKEN" := "secret"]>
                          (<["GITHUB_USERNAME" := "dev"]> process_env)) |}])
  ∧ (Demo.servers !! "blank" = Some Demo.blank_entry
     ∧ (IndexAuth.connectToRemoteServer "blank" None None None [] Demo.m_config).2
       = Throw (Error "Invalid server configuration: missing url or command/args")).
Proof.
  repeat split; try (by eexists); vm_compute; reflexivity.
Qed.

Lemma C7_witness :
  ∃ r evs,
    trace (IndexAuth.connectToRemoteServer "docs" None None None ["hello"] Demo.m_config).1
    = trace (lookup_server "docs" None Demo.m_config).1
        ++ EvConsoleLog "Command: run-tool --port 8080"
        :: EvConnect {| command := Some "run-tool"; args := ["--port"; "8080"]; env := None |} r
        :: evs
    ∧ connections evs = [] ∧ prompts evs = [].
Proof.
  assert (Hlookup : lookup_server "docs" None Demo.m_config
                    = ((lookup_server "docs" None Demo.m_config).1, Normal Demo.docs_entry)).
  { vm_compute. reflexivity. }
  exact (proj1 (proj2 (proj2 (proj2
           (C7_remote_entry_styles (RT := Demo.runtime) "docs" None None None ["hello"]
              Demo.m_config _ Demo.docs_entry Hlookup)))
           "run-tool" ["--port"; "8080"] eq_refl eq_refl ltac:(intros Heq; discriminate Heq) eq_refl)).
Defined.


Lemma C9_witness :
  chatLoop_while ["QuIt"; "never read"] Demo.m_one = (prompted Demo.m_one, Normal tt)
  ∧ chatLoop ["QuIt"; "never read"] Demo.m_one
    = (logged (prompted (started Demo.m_one)) EvRlClose, Normal tt).
Proof.
  apply (proj1 (proj2 (C9_quit_ends_the_loop (RT := Demo.runtime)
                         "QuIt" ["never read"] Demo.m_one))).
  vm_compute. tauto.
Defined.
End ScriptedRuns.

(** * Further properties of the code *)

(** ** Script kinds *)
Section ScriptKinds.
Context `{RT : Runtime}.

Lemma substring_whole s : substring 0 (String.length s) s = s.
Proof. induction s as [|c s IH]; cbn; [done|]. f_equal. exact IH. Qed.

Lemma substring_after pre suffix :
  substring (String.length pre) (String.length suffix) (pre +:+ suffix) = suffix.
Proof.
  induction pre as [|c pre IH]; [apply substring_whole|].
  change (substring (String.length pre) (String.length suffix) (pre +:+ suffix) = suffix).
  exact IH.
Qed.

Lemma length_app_string s t : String.length (s +:+ t) = String.length s + String.length t.
Proof.
  induction s as [|c s IH]; [done|].
  change (S (String.length (s +:+ t)) = S (String.length s + String.length t)).
  by f_equal.
Qed.

Lemma split_at (n : nat) (s : string) :
  (n ≤ String.length s)%nat →
  s = substring 0 n s +:+ substring n (String.length s - n) s.
Proof.
  revert s. induction n as [|n IH]; intros s Hn.
  - rewrite Nat.sub_0_r, substring_whole. by destruct s.
  - destruct s as [|c s]; cbn in *; [lia|].
    change (String c s
            = String c (substring 0 n s +:+ substring n (String.length s - n) s)).
    f_equal. apply IH. lia.
Qed.

(** [endsWith] holds exactly of the strings that are some prefix followed by
    the suffix. *)
Lemma endsWith_iff s suffix :
  endsWith s suffix = true ↔ ∃ pre, s = pre +:+ suffix.
Proof.
  unfold endsWith. split.
  - intros [Hlen Heq]%andb_prop. apply Nat.leb_le in Hlen. apply String.eqb_eq in Heq.
    exists (substring 0 (String.length s - String.length suffix) s).
    rewrite (split_at (String.length s - String.length suffix) s) at 1 by lia.
    f_equal. rewrite <- Heq at 3. f_equal. lia.
  - intros [pre ->]. rewrite length_app_string. apply andb_true_intro. split.
    + apply Nat.leb_le. lia.
    + apply String.eqb_eq.
      replace (String.length pre + String.length suffix - String.length suffix)
        with (String.length pre) by lia.
      apply substring_after.
Qed.

(** X1. [connectToLocalServer] gets past its guard exactly for the paths that
    are some text, possibly empty, followed by [.js] or by [.py]: for those
    a launcher is chosen and nothing else happens yet; every other path (no
    extension, another extension, upper-case [.JS]) is rejected with the
    error, the machine untouched. *)
Theorem X1_local_paths_accepted (serverScriptPath : string) (m : Machine) :
  ((∃ pre, serverScriptPath = pre +:+ ".js" ∨ serverScriptPath = pre +:+ ".py") →
   ∃ launcher, local_command serverScriptPath m = (m, Normal launcher))
  ∧ (¬ (∃ pre, serverScriptPath = pre +:+ ".js" ∨ serverScriptPath = pre +:+ ".py") →
     local_command serverScriptPath m
     = (m, Throw (Error "Server script must be a .js or .py file"))).
Proof.
  unfold local_command. split.
  - intros [pre [Hjs|Hpy]].
    + assert (endsWith serverScriptPath ".js" = true) as -> by (apply endsWith_iff; eauto).
      by eexists.
    + assert (endsWith serverScriptPath ".py" = true) as -> by (apply endsWith_iff; eauto).
      rewrite andb_false_r. by eexists.
  - intros Hnot.
    destruct (endsWith serverScriptPath ".js") eqn:Hjs.
    { exfalso. apply Hnot. apply endsWith_iff in Hjs as [pre ->]. eauto. }
    destruct (endsWith serverScriptPath ".py") eqn:Hpy.
    { exfalso. apply Hnot. apply endsWith_iff in Hpy as [pre ->]. eauto. }
    done.
Qed.
End ScriptKinds.

(** ** More on the engine *)
Section EngineMore.
Context `{RT : Runtime}.

Lemma engine_events_quiet tls evs :
  Forall (engine_event tls) evs →
  connections evs = [] ∧ prompts evs = []
  ∧ Forall (fixed_request tls) (model_commands evs).
Proof.
  induction 1 as [|e evs He _ (Hc & Hp & Hm)]; [done|].
  destruct e; cbn in He; try done; cbn; try done.
  destruct He as [msgs ->]. split; [done|]. split; [done|].
  constructor; [done|exact Hm].
Qed.

(** What [processContent] can add to the trace; [this] is not touched. *)
Lemma processContent_events blocks st m :
  ∃ evs,
    trace (processContent st blocks m).1 = trace m ++ evs
    ∧ Forall (engine_event (this_tools (this m))) evs
    ∧ this (processContent st blocks m).1 = this m.
Proof.
  revert st m. induction blocks as [|b blocks IH]; intros st m; cbn [processContent].
  - exists []. cbn. by rewrite app_nil_r.
  - unfold bind. destruct b as [t|n a i|ty]; [apply IH| |apply IH].
    rewrite processBlock_tool_eq.
    destruct (mcp_callTool n a (world m)) as [w1 [result|e|]];
      [|eexists [_]; cbn; split; [done|]; split; [by repeat constructor|done]..].
    cbv zeta. rewrite invokeClaudeModel_eq. cbv zeta. cbn [world called this].
    destruct (bedrock_send _ w1) as [w2 [f|e|]].
    + destruct (response_content f) as [|b0 bs].
      { eexists [_; _]. cbn. rewrite <- app_assoc. split; [done|].
        split; [|done]. repeat constructor. by eexists. }
      match goal with
      | |- context [processContent ?s blocks ?mm] =>
          destruct (IH s mm) as (evs & Htr & Hall & Hthis)
      end.
      eexists (_ :: _ :: evs). rewrite Htr, Hthis. cbn. rewrite <- !app_assoc.
      split; [done|]. split; [|done].
      constructor; [done|]. constructor; [by eexists|]. exact Hall.
    + eexists [_; _; _]. cbn. rewrite <- !app_assoc. split; [done|].
      split; [|done]. repeat constructor. by eexists.
    + eexists [_; _]. cbn. rewrite <- !app_assoc. split; [done|].
      split; [|done]. repeat constructor. by eexists.
Qed.

Lemma processQuery_events query m :
  ∃ evs,
    trace (processQuery query m).1 = trace m ++ evs
    ∧ Forall (engine_event (this_tools (this m))) evs
    ∧ this (processQuery query m).1 = this m.
Proof.
  unfold processQuery, bind, get_this. rewrite invokeClaudeModel_eq. cbv zeta.
  destruct (bedrock_send _ (world m)) as [w1 [response|e|]].
  - match goal with
    | |- context [processContent ?s ?bs ?mm] =>
        destruct (processContent_events bs s mm) as (evs & Htr & Hall & Hthis);
        destruct (processContent s bs mm) as [m1 [st1|e|h]]
    end; cbn in Htr, Hthis |- *; rewrite Htr, Hthis, <- app_assoc;
      (eexists (_ :: evs); split; [done|]; split; [|done];
       constructor; [by eexists|exact Hall]).
  - eexists [_; _]. cbn. rewrite <- app_assoc. split; [done|].
    split; [|done]. repeat constructor. by eexists.
  - eexists [_]. cbn. split; [done|]. split; [|done]. repeat constructor. by eexists.
Qed.

(** X2. During a query every request to the model is built the same way: the
    fixed model id, content type, protocol version and output limit of 1000
    tokens, and the tool list the session holds. A query opens no channel,
    shows no prompt and leaves the client object, tools included, as it
    was. *)
Theorem X2_query_requests_are_uniform (query : string) (m : Machine) :
  ∃ evs,
    trace (processQuery query m).1 = trace m ++ evs
    ∧ Forall (fixed_request (this_tools (this m))) (model_commands evs)
    ∧ connections evs = []
    ∧ prompts evs = []
    ∧ this (processQuery query m).1 = this m.
Proof.
  destruct (processQuery_events query m) as (evs & Htr & Hall & Hthis).
  apply engine_events_quiet in Hall as (Hc & Hp & Hm). by exists evs.
Qed.





(** X20. What the tool server returns reaches the model untouched: when the
    loop completes, the payloads of the tool-result messages it appended to
    the transcript are, in order, the contents of the results the tool calls
    returned, and [toolResults] holds those same results, one per call. *)
Theorem X20_tool_results_are_forwarded
    (blocks : list ContentBlock) (st st' : QueryState) (m m' : Machine) :
  processContent st blocks m = (m', Normal st') →
  ∃ evs tl,
    trace m' = trace m ++ evs
    ∧ qs_messages st' = qs_messages st ++ tl
    ∧ result_payloads tl = result_content <$> tool_results evs
    ∧ toolResults st' = toolResults st ++ tool_results evs
    ∧ length (tool_results evs) = length (tool_requests blocks).
Proof.
  revert st m. induction blocks as [|b blocks IH]; intros st m; cbn [processContent].
  - intros [= <- <-]. exists [], []. by rewrite !app_nil_r.
  - unfold bind. destruct b as [t|n a i|ty];
      [cbn; intros Hrun; apply IH in Hrun; exact Hrun| |apply IH].
    rewrite processBlock_tool_eq.
    destruct (mcp_callTool n a (world m)) as [w1 [result|e|]]; try done.
    cbv zeta. rewrite invokeClaudeModel_eq. cbv zeta. cbn [world called this].
    destruct (bedrock_send _ w1) as [w2 [f|e|]]; try done.
    destruct (response_content f) as [|b0 bs]; try done.
    intros Hrun. apply IH in Hrun as (evs & tl & Htr & Hmsgs & Hpay & Hres & Hlen).
    cbn in Htr, Hmsgs, Hres. rewrite <- !app_assoc in Htr.
    rewrite <- !app_assoc in Hmsgs. rewrite <- app_assoc in Hres.
    eexists (EvCallTool n a (Fulfilled result) :: EvBedrockSend _ (Fulfilled f) :: evs),
      (tool_use_message n a i :: tool_result_message i result :: tl).
    split; [exact Htr|]. split; [exact Hmsgs|]. split; [|split; [exact Hres|]].
    + cbn. f_equal. exact Hpay.
    + cbn. f_equal. exact Hlen.
Qed.
End EngineMore.

(** ** More on the interactive loop *)
Section LoopMore.
Context `{RT : Runtime}.

Lemma engine_loop_event tls e : engine_event tls e → loop_event tls e.
Proof. destruct e; cbn; done. Qed.

Lemma transcripts_app (evs1 evs2 : list Event) :
  transcripts (evs1 ++ evs2) = transcripts evs1 ++ transcripts evs2.
Proof. apply flat_map_app. Qed.

(** What the body of the loop adds to the trace. *)
Lemma chatLoop_while_events stdin m :
  ∃ evs,
    trace (chatLoop_while stdin m).1 = trace m ++ evs
    ∧ Forall (loop_event (this_tools (this m))) evs
    ∧ Forall (fun msgs => ∃ line tl, In line stdin
                                     ∧ msgs = initial_messages line ++ tl
                                     ∧ correlated tl)
        (transcripts evs)
    ∧ this (chatLoop_while stdin m).1 = this m.
Proof.
  revert m. induction stdin as [|line rest IH]; intros m.
  - eexists [_]. cbn. split; [done|]. split; [by repeat constructor|]. by split.
  - destruct (String.eqb (toLowerCase line) "quit") eqn:Hq.
    + cbn [chatLoop_while]. unfold bind at 1. cbn [emit]. rewrite Hq.
      eexists [_]. cbn. split; [done|]. split; [by repeat constructor|]. by split.
    + rewrite chatLoop_while_step
        by (rewrite <- toLowerCase_quit; intros Heq; by rewrite Heq in Hq).
      destruct (processQuery_events line (prompted m)) as (evs & Htr & Hall & Hthis).
      destruct (processQuery_transcripts line (prompted m)) as (evs' & Htr' & Hfresh).
      rewrite Htr in Htr'. apply app_inv_head in Htr'. subst evs'.
      assert (Hloop : Forall (loop_event (this_tools (this m))) evs).
      { eapply Forall_impl; [exact Hall|]. intros e. apply engine_loop_event. }
      assert (Hhere : Forall (fun msgs => ∃ l tl, In l (line :: rest)
                                                  ∧ msgs = initial_messages l ++ tl
                                                  ∧ correlated tl)
                        (transcripts evs)).
      { eapply Forall_impl; [exact Hfresh|]. cbn. intros ms (tl & -> & Hcor).
        exists line, tl. auto. }
      destruct (processQuery line (prompted m)) as [m1 [response|e|h]];
        cbn in Htr, Hthis |- *.
      * destruct (IH (logged m1 (EvConsoleLog (LF +:+ response))))
          as (evs2 & Htr2 & Hall2 & Hfresh2 & Hthis2).
        cbn in Htr2, Hall2, Hthis2. rewrite Hthis in Hall2.
        exists (EvQuestion (LF +:+ "Query: ") :: evs
                  ++ EvConsoleLog (LF +:+ response) :: evs2).
        rewrite Htr2, Htr, Hthis2, Hthis, <- !app_assoc. cbn.
        split; [done|]. split.
        { constructor; [done|]. apply Forall_app. split; [done|]. by constructor. }
        split; [|done]. rewrite flat_map_app. apply Forall_app. split; [exact Hhere|].
        cbn. eapply Forall_impl; [exact Hfresh2|]. cbn.
        intros ms (l & tl & Hin & -> & Hcor). exists l, tl. auto.
      * exists (EvQuestion (LF +:+ "Query: ") :: evs).
        rewrite Htr, Hthis, <- app_assoc. cbn. split; [done|]. split; [by constructor|].
        by split.
      * exists (EvQuestion (LF +:+ "Query: ") :: evs).
        rewrite Htr, Hthis, <- app_assoc. cbn. split; [done|]. split; [by constructor|].
        by split.
Qed.

(** [chatLoop] in terms of its loop. *)
Lemma chatLoop_eq stdin m :
  chatLoop stdin m =
    match chatLoop_while stdin (started m) with
    | (m1, Halt h) => (m1, Halt h)
    | (m1, r) => (logged m1 EvRlClose, r)
    end.
Proof.
  unfold chatLoop, try_finally, bind at 1. cbn [emit].
  unfold bind at 1. cbn [emit]. unfold bind at 1. cbn [emit].
  change (chatLoop_while stdin _) with (chatLoop_while stdin (started m)).
  by destruct (chatLoop_while stdin (started m)) as [m1 [[]|e|h]].
Qed.


(** X6. The shape of a session: [chatLoop] creates its readline interface and
    prints its two opening lines; then come only prompts, printed answers and
    engine events; and the interface is closed exactly once, as the last
    event, whenever the loop returns or throws, and not when it is left
    waiting for input. The loop never changes the client object, so the tool
    list stays the one set at connection time. *)
Theorem X6_session_shape (stdin : list string) (m : Machine) :
  ∃ body,
    trace (chatLoop stdin m).1
    = trace m
        ++ [EvCreateInterface;
            EvConsoleLog (LF +:+ "MCP Client Started with AWS Bedrock (using IAM role authentication)!");
            EvConsoleLog "Type your queries or 'quit' to exit."]
        ++ body
        ++ match (chatLoop stdin m).2 with
           | Halt _ => []
           | _ => [EvRlClose]
           end
    ∧ Forall (loop_event (this_tools (this m))) body
    ∧ this (chatLoop stdin m).1 = this m.
Proof.
  rewrite chatLoop_eq.
  destruct (chatLoop_while_events stdin (started m)) as (evs & Htr & Hall & _ & Hthis).
  destruct (chatLoop_while stdin (started m)) as [m1 [[]|e|h]];
    cbn in Htr, Hall, Hthis |- *; rewrite Htr, <- !app_assoc; cbn;
    exists evs; rewrite ?app_nil_r; done.
Qed.



End LoopMore.

(** ** More on the configuration loader *)
Section ConfigMore.
Context `{RT : Runtime}.

Lemma try_path_reads p m :
  ∃ evs,
    trace (try_path p m).1 = trace m ++ evs
    ∧ (read_paths evs = [] ∨ read_paths evs = [p])
    ∧ ∀ e, (try_path p m).2 ≠ Throw e.
Proof.
  unfold try_path, try_catch, bind, peek, call, emit.
  destruct (existsSync p (world m)); cbn.
  - destruct (readFile p (world m)) as [w1 [content|e|]]; cbn.
    + destruct (JSON_parse content) as [e|config]; cbn.
      * eexists [_; _]. rewrite <- app_assoc. split; [done|]. split; [by right|done].
      * eexists [_]. split; [done|]. split; [by right|done].
    + eexists [_; _]. rewrite <- app_assoc. split; [done|]. split; [by right|done].
    + eexists [_]. split; [done|]. split; [by right|done].
  - exists []. rewrite app_nil_r. split; [done|]. split; [by left|done].
Qed.

Lemma loadConfig_from_reads paths m :
  (∀ e, (loadConfig_from paths m).2 ≠ Throw e)
  ∧ ∃ evs,
      trace (loadConfig_from paths m).1 = trace m ++ evs
      ∧ read_paths evs `sublist_of` paths.
Proof.
  revert m. induction paths as [|p paths IH]; intros m; cbn [loadConfig_from].
  - split; [done|]. exists []. by rewrite app_nil_r.
  - unfold bind. destruct (try_path_reads p m) as (evs & Htr & Hread & Hno).
    destruct (try_path p m) as [m1 [[config|]|e|h]]; cbn in Htr, Hno |- *.
    + split; [done|]. exists evs. split; [done|].
      destruct Hread as [-> | ->]; [apply sublist_nil_l|].
      apply sublist_skip, sublist_nil_l.
    + destruct (IH m1) as (Hno' & evs' & Htr' & Hsub). split; [done|].
      exists (evs ++ evs'). rewrite Htr', Htr, app_assoc. split; [done|].
      unfold read_paths in *. rewrite flat_map_app.
      destruct Hread as [-> | ->]; cbn.
      * by apply sublist_cons.
      * by apply sublist_skip.
    + by destruct (Hno e).
    + split; [done|]. exists evs. split; [done|].
      destruct Hread as [-> | ->]; [apply sublist_nil_l|].
      apply sublist_skip, sublist_nil_l.
Qed.

(** X8. [loadConfig] never throws: a file that cannot be read or parsed only
    costs a warning. The files it reads are among its candidates, each at
    most once and in the candidates' order; with an explicit path the only
    candidate is that path, so the default files are never read. *)
Theorem X8_loading_never_throws (configPath : option string) (m : Machine) :
  (∀ e, (loadConfig configPath m).2 ≠ Throw e)
  ∧ ∃ evs,
      trace (loadConfig configPath m).1 = trace m ++ evs
      ∧ read_paths evs
          `sublist_of` (if truthy configPath then [default "" configPath] else defaultPaths).
Proof. apply loadConfig_from_reads. Qed.

(** X9. An explicit configuration path that does not exist is passed over in
    silence: nothing is read, no warning is printed, the default files are
    not consulted, and the empty server map results; so asking for a server
    then fails with the not-found error, not with an error about the
    file. *)
Theorem X9_missing_explicit_config (serverName p : string) (m : Machine) :
  p ≠ "" →
  existsSync p (world m) = false →
  loadConfig (Some p) m = (m, Normal {| mcpServers := Some ∅ |})
  ∧ (serverName ∉ Object_prototype_keys →
     lookup_server serverName (Some p) m
     = (m, Throw (Error (not_found_message serverName)))).
Proof.
  intros Hp Hmissing.
  assert (Hload : loadConfig (Some p) m = (m, Normal {| mcpServers := Some ∅ |})).
  { unfold loadConfig. cbn [truthy default]. destruct (String.eqb_spec p ""); [done|].
    cbn. unfold bind, try_path, try_catch, bind, peek. by rewrite Hmissing. }
  split; [exact Hload|]. intros Hname.
  unfold lookup_server, bind. rewrite Hload. cbn [mcpServers mbind option_bind].
  unfold get_property. rewrite lookup_empty.
  by rewrite bool_decide_eq_false_2.
Qed.


(** X21. The per-user candidate of the configuration lookup is
    [.mcp/config.json] under [HOME] when that is set and not empty, else
    under [USERPROFILE] when that is set and not empty, and else under the
    empty string, which [path.join] takes relative to the current
    directory; it is always the third and last candidate. *)
Theorem X21_per_user_candidate :
  length defaultPaths = 3
  ∧ (∀ home,
       process_env !! "HOME" = Some home → home ≠ "" →
       defaultPaths !! 2 = Some (path_join [home; ".mcp"; "config.json"]))
  ∧ (∀ profile,
       truthy (process_env !! "HOME") = false →
       process_env !! "USERPROFILE" = Some profile → profile ≠ "" →
       defaultPaths !! 2 = Some (path_join [profile; ".mcp"; "config.json"]))
  ∧ (truthy (process_env !! "HOME") = false →
     truthy (process_env !! "USERPROFILE") = false →
     defaultPaths !! 2 = Some (path_join [""; ".mcp"; "config.json"])).
Proof.
  assert (Htruthy : ∀ s, s ≠ "" → truthy (Some s) = true).
  { intros s Hs. cbn. by destruct (String.eqb_spec s ""). }
  unfold defaultPaths, or_else. split; [done|]. split; [|split].
  - intros home -> Hne. by rewrite Htruthy.
  - intros profile -> -> Hne. by rewrite Htruthy.
  - by intros -> ->.
Qed.
End ConfigMore.

(** ** More on connecting *)
Section ConnectMore.
Context `{RT : Runtime}.

(** X11. A failed connection. When [mcp.connect] is rejected, [listTools] is
    not called; when [listTools] is rejected, that is the last call. In both
    cases the client object is left as it was, tools included. [index.ts]
    throws the rejection as it is; [index_auth.ts] prints it and throws a new
    [Error] whose message is [Connection failed: ] followed by the original
    text. *)
Theorem X11_failed_connection (t : StdioClientTransport) (m : Machine) :
  transport (this m) = Some t →
  (∀ w1 e,
     mcp_connect t (world m) = (w1, Rejected e) →
     Index.connectWithTransport m
     = ({| world := w1; trace := trace m ++ [EvConnect t (Rejected e)]; this := this m |},
        Throw e)
     ∧ IndexAuth.connectWithTransport m
       = ({| world := w1;
             trace := trace m ++ [EvConnect t (Rejected e);
                                  EvConsoleError "Failed to connect to MCP server:" (Some e)];
             this := this m |},
          Throw (Error ("Connection failed: " +:+ exn_text e))))
  ∧ (∀ w1 w2 e,
       mcp_connect t (world m) = (w1, Fulfilled tt) →
       mcp_listTools w1 = (w2, Rejected e) →
       Index.connectWithTransport m
       = ({| world := w2;
             trace := trace m ++ [EvConnect t (Fulfilled tt); EvListTools (Rejected e)];
             this := this m |},
          Throw e)
       ∧ IndexAuth.connectWithTransport m
         = ({| world := w2;
               trace := trace m ++ [EvConnect t (Fulfilled tt); EvListTools (Rejected e);
                                    EvConsoleError "Failed to connect to MCP server:" (Some e)];
               this := this m |},
            Throw (Error ("Connection failed: " +:+ exn_text e)))).
Proof.
  intros Ht.
  unfold Index.connectWithTransport, IndexAuth.connectWithTransport, try_catch,
    register_tools, bind, call, get_this, emit, throw.
  rewrite Ht. split.
  - intros w1 e ->. cbn. by rewrite <- app_assoc.
  - intros w1 w2 e -> . cbn. intros ->. cbn. by rewrite <- !app_assoc.
Qed.

Lemma register_tools_success t m w1 w2 tls :
  mcp_connect t (world m) = (w1, Fulfilled tt) →
  mcp_listTools w1 = (w2, Fulfilled tls) →
  register_tools t m
  = ({| world := w2;
        trace := trace m ++ [EvConnect t (Fulfilled tt);
                             EvListTools (Fulfilled tls);
                             EvConsoleLogTools "Connected to server with tools:"
                               (server_tool_name <$> tls)];
        this := {| transport := transport (this m); this_tools := as_Tool <$> tls |} |},
     Normal tt).
Proof.
  intros Hc Hl. unfold register_tools, bind, call, get_this, set_this, emit.
  rewrite Hc. cbn. rewrite Hl. cbn. rewrite <- !app_assoc. cbn.
  f_equal. f_equal. f_equal. f_equal. f_equal.
  rewrite <- list_fmap_compose. reflexivity.
Qed.

(** X12. A successful connection stores the server's tools, converted one by
    one and in the server's order, prints their names, and keeps the
    transport; from then on every request of every query carries exactly
    those tools, with the fixed model id and limits. The two source files
    agree. *)
Theorem X12_registered_tools_reach_the_model
    (t : StdioClientTransport) (m : Machine) (w1 w2 : World) (tls : list ServerTool) :
  transport (this m) = Some t →
  mcp_connect t (world m) = (w1, Fulfilled tt) →
  mcp_listTools w1 = (w2, Fulfilled tls) →
  let m' := {| world := w2;
               trace := trace m ++ [EvConnect t (Fulfilled tt);
                                    EvListTools (Fulfilled tls);
                                    EvConsoleLogTools "Connected to server with tools:"
                                      (server_tool_name <$> tls)];
               this := {| transport := Some t; this_tools := as_Tool <$> tls |} |} in
  Index.connectWithTransport m = (m', Normal tt)
  ∧ IndexAuth.connectWithTransport m = (m', Normal tt)
  ∧ tool_name <$> this_tools (this m') = server_tool_name <$> tls
  ∧ ∀ query,
      ∃ evs,
        trace (processQuery query m').1 = trace m' ++ evs
        ∧ Forall (fixed_request (as_Tool <$> tls)) (model_commands evs).
Proof.
  intros Ht Hc Hl m'.
  assert (Hreg : register_tools t m = (m', Normal tt)).
  { rewrite (register_tools_success t m w1 w2 tls Hc Hl). subst m'. by rewrite Ht. }
  split; [|split; [|split]].
  - unfold Index.connectWithTransport, bind, get_this. by rewrite Ht, Hreg.
  - unfold IndexAuth.connectWithTransport, try_catch, bind, get_this. by rewrite Ht, Hreg.
  - subst m'. cbn. by rewrite <- list_fmap_compose.
  - intros query. destruct (processQuery_events query m') as (evs & Htr & Hall & _).
    apply engine_events_quiet in Hall as (_ & _ & Hm). by exists evs.
Qed.

(** X13. The bridge's environment. For an entry with a non-empty [url] and
    both credentials supplied, the one channel opened is [npx mcp-remote url]
    with an environment in which [GITHUB_USERNAME] and [GITHUB_TOKEN] are the
    credentials, whatever the process environment held under those names,
    and every other variable is as in the process environment. *)
Theorem X13_bridge_environment
    (e : MCPServerConfig) (url u p : string) (stdin : list string) (m : Machine) :
  cfg_url e = Some url → url ≠ "" → u ≠ "" → p ≠ "" →
  ∃ r evs environment,
    trace (IndexAuth.connect_serverConfig e (Some u) (Some p) stdin m).1
    = trace m
        ++ EvConsoleLog ("Using mcp-remote to connect to: " +:+ url)
        :: EvConnect {| command := Some "npx";
                        args := ["mcp-remote"; url];
                        env := Some environment |} r
        :: evs
    ∧ connections evs = [] ∧ prompts evs = []
    ∧ environment !! "GITHUB_USERNAME" = Some u
    ∧ environment !! "GITHUB_TOKEN" = Some p
    ∧ ∀ k, k ≠ "GITHUB_USERNAME" → k ≠ "GITHUB_TOKEN" →
           environment !! k = process_env !! k.
Proof.
  intros Heu Hurl Hu Hp.
  assert (Htruthy : ∀ s, s ≠ "" → truthy (Some s) = true).
  { intros s Hs. cbn. by destruct (String.eqb_spec s ""). }
  unfold IndexAuth.connect_serverConfig, IndexAuth.given_or_prompt.
  rewrite Heu, !Htruthy by done. unfold bind at 1. unfold ret at 1.
  unfold bind at 1. unfold ret at 1.
  unfold bind, emit, get_this, set_this. cbn -[IndexAuth.connectWithTransport].
  match goal with
  | |- context [IndexAuth.connectWithTransport ?mm] =>
      destruct (IndexAuth_connectWithTransport_shape _ mm eq_refl)
        as (r & evs & Htr & Hc & Hpr & _);
      destruct (IndexAuth.connectWithTransport mm) as [m2 [[]|ex|h]]
  end; cbn in *; rewrite Htr, <- app_assoc;
    (eexists r, evs, _; split; [reflexivity|]; split; [done|]; split; [done|];
     split; [by rewrite lookup_insert_ne, lookup_insert_eq|];
     split; [by rewrite lookup_insert_eq|];
     intros k Hk1 Hk2; by rewrite !lookup_insert_ne).
Qed.


(** X15. [index.ts] knows one configuration style only. An entry without
    [args], and so an entry that gives just a [url], makes
    [connectToRemoteServer] throw a [TypeError] before any transport is
    stored or opened. An entry with [args] is launched with its [command] as
    it is, an absent one included (printed as [undefined]); [url] is ignored
    and nothing is ever prompted. *)
Theorem X15_index_ts_remote_entries (serverConfig : MCPServerConfig) (m : Machine) :
  (cfg_args serverConfig = None →
   Index.connect_serverConfig serverConfig m
   = (m, Throw (TypeError "Cannot read properties of undefined (reading 'join')")))
  ∧ (∀ a,
       cfg_args serverConfig = Some a →
       ∃ r evs,
         trace (Index.connect_serverConfig serverConfig m).1
         = trace m
             ++ EvConsoleLog ("Command: " +:+ template (cfg_command serverConfig)
                              +:+ " " +:+ join " " a)
             :: EvConnect {| command := cfg_command serverConfig; args := a; env := None |} r
             :: evs
         ∧ connections evs = [] ∧ prompts evs = []).
Proof.
  unfold Index.connect_serverConfig. split.
  - by intros ->.
  - intros a ->. unfold bind, emit, get_this, set_this.
    cbn -[Index.connectWithTransport].
    match goal with
    | |- context [Index.connectWithTransport ?mm] =>
        destruct (Index_connectWithTransport_shape _ mm eq_refl)
          as (r & evs & Htr & Hc & Hpr & _)
    end.
    cbn -[Index.connectWithTransport] in Htr. rewrite Htr, <- app_assoc.
    by exists r, evs.
Qed.
End ConnectMore.

(** ** More on [main] *)
Section MainMore.
Context `{RT : Runtime}.

(** X16. Reading an option from the command line: the value is the argument
    right after the first occurrence of the flag, whatever it is (another
    flag included); a flag that is absent, or that is the last argument,
    gives no value. *)
Theorem X16_option_values (flag : string) :
  (∀ args, ¬ In flag args → flag_value flag args = None)
  ∧ (∀ pre rest, ¬ In flag pre → flag_value flag (pre ++ flag :: rest) = head rest).
Proof.
  split.
  - intros l. induction l as [|a l IH]; cbn; [done|]. intros Hnot.
    destruct (String.eqb_spec a flag) as [->|Hne]; [exfalso; apply Hnot; by left|].
    apply IH. intros Hin. apply Hnot. by right.
  - induction pre as [|a pre IH]; intros rest Hnot; cbn.
    + by rewrite String.eqb_refl.
    + destruct (String.eqb_spec a flag) as [->|Hne]; [exfalso; apply Hnot; by left|].
      apply IH. intros Hin. apply Hnot. by right.
Qed.

Lemma no_exit_bind {A B} (c : M A) (k : A → M B) m :
  no_exit (c m).2 → (∀ a m', no_exit (k a m').2) → no_exit (bind c k m).2.
Proof.
  unfold bind. intros Hc Hk.
  destruct (c m) as [m1 [a|e|h]]; cbn in *; [apply Hk|intros ?; discriminate|].
  intros code [= ->]. by apply (Hc code).
Qed.

Lemma no_exit_try_catch {A} (c : M A) (handler : Exn → M A) m :
  no_exit (c m).2 → (∀ e m', no_exit (handler e m').2) → no_exit (try_catch c handler m).2.
Proof.
  unfold try_catch. intros Hc Hh.
  destruct (c m) as [m1 [a|e|h]]; cbn in *; [intros ?; discriminate|apply Hh|exact Hc].
Qed.

Lemma no_exit_try_finally {A} (c : M A) (f : M unit) m :
  no_exit (c m).2 → (∀ m', no_exit (f m').2) → no_exit (try_finally c f m).2.
Proof.
  unfold try_finally. intros Hc Hf.
  destruct (c m) as [m1 [a|e|h]]; cbn in *; [| |exact Hc];
    specialize (Hf m1); destruct (f m1) as [m2 [[]|e'|h']]; cbn in *;
    intros code Heq; first [discriminate | injection Heq as ->; by apply (Hf code)].
Qed.

Lemma no_exit_call {A} (f : World → World * Settled A) ev m : no_exit (call f ev m).2.
Proof.
  unfold call. destruct (f (world m)) as [w [a|e|]]; cbn; intros ?; discriminate.
Qed.

Ltac no_exit_atom :=
  solve [ apply no_exit_call
        | intros ?; cbn; discriminate ].

Ltac no_exit_step :=
  match goal with
  | |- no_exit (bind _ _ _).2 => apply no_exit_bind; [|intros ? ?]
  | |- no_exit (try_catch _ _ _).2 => apply no_exit_try_catch; [|intros ? ?]
  | |- no_exit (try_finally _ _ _).2 => apply no_exit_try_finally; [|intros ?]
  | |- no_exit (match ?x with _ => _ end _).2 => destruct x
  | |- no_exit (match ?x with _ => _ end).2 => destruct x
  | |- _ => no_exit_atom
  end.

Lemma no_exit_invokeClaudeModel msgs tls m : no_exit (invokeClaudeModel msgs tls m).2.
Proof. unfold invokeClaudeModel. repeat no_exit_step. Qed.

Lemma no_exit_processContent blocks st m : no_exit (processContent st blocks m).2.
Proof.
  revert st m. induction blocks as [|b blocks IH]; intros st m; cbn [processContent].
  - no_exit_atom.
  - apply no_exit_bind; [|intros; apply IH].
    unfold processBlock, push_followUp. destruct b; repeat no_exit_step.
    apply no_exit_invokeClaudeModel.
Qed.

Lemma no_exit_processQuery query m : no_exit (processQuery query m).2.
Proof.
  unfold processQuery. repeat no_exit_step;
    [apply no_exit_invokeClaudeModel|apply no_exit_processContent].
Qed.

Lemma no_exit_chatLoop stdin m : no_exit (chatLoop stdin m).2.
Proof.
  unfold chatLoop. repeat no_exit_step. clear.
  match goal with |- no_exit (chatLoop_while stdin ?mm).2 => generalize mm end.
  induction stdin as [|line rest IH]; intros m; cbn [chatLoop_while].
  - repeat no_exit_step.
  - apply no_exit_bind; [no_exit_atom|intros _ m1].
    destruct (String.eqb _ _); [no_exit_atom|].
    repeat no_exit_step; [apply no_exit_processQuery|apply IH].
Qed.

Lemma no_exit_register_tools t m : no_exit (register_tools t m).2.
Proof. unfold register_tools. repeat no_exit_step. Qed.

Lemma no_exit_Index_connectWithTransport m : no_exit (Index.connectWithTransport m).2.
Proof.
  unfold Index.connectWithTransport. repeat no_exit_step. apply no_exit_register_tools.
Qed.

Lemma no_exit_IndexAuth_connectWithTransport m : no_exit (IndexAuth.connectWithTransport m).2.
Proof.
  unfold IndexAuth.connectWithTransport. repeat no_exit_step. apply no_exit_register_tools.
Qed.

Lemma no_exit_connectToLocalServer_with (connect : M unit) path m :
  (∀ m', no_exit (connect m').2) →
  no_exit (connectToLocalServer_with connect path m).2.
Proof.
  intros Hc. unfold connectToLocalServer_with, local_command.
  repeat no_exit_step; apply Hc.
Qed.

Lemma no_exit_lookup_server serverName configPath m :
  no_exit (lookup_server serverName configPath m).2.
Proof.
  unfold lookup_server, loadConfig. apply no_exit_bind; [|intros; repeat no_exit_step].
  generalize (if truthy configPath then [default "" configPath] else defaultPaths).
  intros paths. revert m. induction paths as [|p paths IH]; intros m; cbn [loadConfig_from].
  - no_exit_atom.
  - apply no_exit_bind; [|intros [config|] m1; [no_exit_atom|apply IH]].
    unfold try_path. repeat no_exit_step.
Qed.

Lemma no_exit_Index_main_try args stdin m : no_exit (Index.main_try args stdin m).2.
Proof.
  unfold Index.main_try, Index.connectToLocalServer, Index.connectToRemoteServer,
    Index.connect_serverConfig.
  repeat no_exit_step;
    first [ apply no_exit_chatLoop
          | apply no_exit_lookup_server
          | apply no_exit_Index_connectWithTransport
          | apply no_exit_connectToLocalServer_with;
            apply no_exit_Index_connectWithTransport ].
Qed.

Lemma no_exit_IndexAuth_main_try args stdin m : no_exit (IndexAuth.main_try args stdin m).2.
Proof.
  unfold IndexAuth.main_try, IndexAuth.connectToLocalServer, IndexAuth.connectToRemoteServer,
    IndexAuth.connect_serverConfig, IndexAuth.given_or_prompt, IndexAuth.promptForInput,
    question.
  repeat no_exit_step;
    first [ apply no_exit_chatLoop
          | apply no_exit_lookup_server
          | apply no_exit_IndexAuth_connectWithTransport
          | apply no_exit_connectToLocalServer_with;
            apply no_exit_IndexAuth_connectWithTransport ].
Qed.

Lemma cleanup_then_exit_eq (m : Machine) :
  (cleanup ;; process_exit 0) m =
    match mcp_close (world m) with
    | (w, Fulfilled _) =>
        ({| world := w;
            trace := trace m ++ [EvClose (Fulfilled tt); EvExit 0];
            this := this m |},
         Halt (Exited 0))
    | (w, Rejected e) =>
        ({| world := w; trace := trace m ++ [EvClose (Rejected e)]; this := this m |},
         Throw e)
    | (w, NeverSettles) =>
        ({| world := w; trace := trace m ++ [EvClose NeverSettles]; this := this m |},
         Halt AwaitForever)
    end.
Proof.
  unfold cleanup, process_exit, bind, call, emit, halt.
  destruct (mcp_close (world m)) as [w [[]|e|]]; cbn; [|done..].
  by rewrite <- app_assoc.
Qed.

Lemma try_finally_exit_ends {A} (c : M A) (m : Machine) :
  no_exit (c m).2 →
  ends_as_main
    (match try_finally c (cleanup ;; process_exit 0) m with
     | (m', Normal _) => (m', Normal tt)
     | (m', Throw e) => (m', Throw e)
     | (m', Halt h) => (m', Halt h)
     end).
Proof.
  unfold try_finally. intros Hc.
  destruct (c m) as [m1 [a|e|h]]; cbn in Hc.
  - rewrite cleanup_then_exit_eq.
    destruct (mcp_close (world m1)) as [w [[]|e'|]]; cbn; [split; [done|]|..]; by eexists.
  - rewrite cleanup_then_exit_eq.
    destruct (mcp_close (world m1)) as [w [[]|e'|]]; cbn; [split; [done|]|..]; by eexists.
  - destruct h as [|code]; [done|]. by destruct (Hc code).
Qed.

(** X17. However a run goes, [main] ends in one of these ways, in both source
    files: the process exits, always with status 0 and right after the
    connector was closed, also when connecting or a query had failed; or
    closing the connector is rejected and that rejection escapes; or the run
    is left waiting on a call or on input that never comes. [main] never
    simply returns. *)
Theorem X17_main_always_exits_zero (argv stdin : list string) (m : Machine) :
  ends_as_main (Index.main argv stdin m)
  ∧ ends_as_main (IndexAuth.main argv stdin m).
Proof.
  split.
  - pose proof (try_finally_exit_ends (Index.main_try argv stdin) m
                  (no_exit_Index_main_try argv stdin m)) as Hend.
    unfold Index.main. by destruct (try_finally _ _ m) as [m' [[]|e|h]].
  - assert (Hc : no_exit (try_catch (IndexAuth.main_try argv stdin)
                            (fun error => emit (EvConsoleError "Error:" (Some error))) m).2).
    { apply no_exit_try_catch; [apply no_exit_IndexAuth_main_try|].
      intros e m' code. cbn. discriminate. }
    pose proof (try_finally_exit_ends _ m Hc) as Hend.
    unfold IndexAuth.main. by destruct (try_finally _ _ m) as [m' [[]|e|h]].
Qed.

(** X18. In [index.ts] an exception from connecting or from a query is
    swallowed by [main]: there is no [catch], and the [finally] closes the
    connector and exits with status 0, so nothing is printed for the
    exception at the top level. *)
Theorem X18_index_ts_swallows_exceptions
    (argv stdin : list string) (m m1 : Machine) (e : Exn) (w2 : World) :
  Index.main_try argv stdin m = (m1, Throw e) →
  mcp_close (world m1) = (w2, Fulfilled tt) →
  Index.main argv stdin m
  = ({| world := w2;
        trace := trace m1 ++ [EvClose (Fulfilled tt); EvExit 0];
        this := this m1 |},
     Halt (Exited 0)).
Proof.
  intros Htry Hclose. unfold Index.main, try_finally. rewrite Htry.
  rewrite cleanup_then_exit_eq, Hclose. reflexivity.
Qed.

(** X19. [main] goes on to connect only for a command line that starts with
    [--local] or [--remote] and has at least one more argument. For every
    other command line it prints one line, the usage text (no argument, or
    [--help] or [-h] first) or the invalid-arguments error, and does nothing
    else: no file is read, no channel opened, no prompt shown. A flag with
    nothing after it is an invalid command line. *)
Theorem X19_other_command_lines (argv stdin : list string) (m : Machine) :
  ¬ asks_to_connect argv →
  let help := argv = [] ∨ head argv = Some "--help" ∨ head argv = Some "-h" in
  (help →
   Index.main_try argv stdin m = (logged m (EvConsoleLog Index.usage), Normal tt)
   ∧ IndexAuth.main_try argv stdin m = (logged m (EvConsoleLog IndexAuth.usage), Normal tt))
  ∧ (¬ help →
     Index.main_try argv stdin m = (logged m invalid_arguments, Normal tt)
     ∧ IndexAuth.main_try argv stdin m = (logged m invalid_arguments, Normal tt)).
Proof.
  intros Hnot help. subst help. unfold Index.main_try, IndexAuth.main_try.
  destruct argv as [|a0 rest]; cbn [head].
  { split; [done|]. intros Hh. exfalso. apply Hh. by left. }
  destruct (String.eqb_spec a0 "--help") as [->|Hhelp].
  { split; [done|]. intros Hh. exfalso. apply Hh. right. by left. }
  destruct (String.eqb_spec a0 "-h") as [->|Hh].
  { split; [done|]. intros Hx. exfalso. apply Hx. right. by right. }
  cbn [orb]. split.
  { intros [Hx|[[= Hx]|[= Hx]]]; done. }
  intros _. destruct rest as [|a1 rest]; [done|].
  destruct (String.eqb_spec a0 "--local") as [->|Hl].
  { exfalso. apply Hnot. exists "--local", a1, rest. auto. }
  destruct (String.eqb_spec a0 "--remote") as [->|Hr].
  { exfalso. apply Hnot. exists "--remote", a1, rest. auto. }
  done.
Qed.
End MainMore.

(** ** The further properties at work on the scripted worlds *)
Section MoreScriptedRuns.
#[local] Existing Instance Demo.json.
#[local] Existing Instance Demo.runtime.

Lemma X1_witness :
  (∃ launcher, local_command "server.py" Demo.m_one = (Demo.m_one, Normal launcher))
  ∧ local_command "SERVER.JS" Demo.m_one
    = (Demo.m_one, Throw (Error "Server script must be a .js or .py file")).
Proof.
  split.
  - apply (proj1 (X1_local_paths_accepted (RT := Demo.runtime) "server.py" Demo.m_one)).
    exists "server". by right.
  - apply (proj2 (X1_local_paths_accepted (RT := Demo.runtime) "SERVER.JS" Demo.m_one)).
    intros [pre [Hpre|Hpre]].
    + assert (Hends : endsWith "SERVER.JS" ".js" = true) by (apply endsWith_iff; eauto).
      discriminate Hends.
    + assert (Hends : endsWith "SERVER.JS" ".py" = true) by (apply endsWith_iff; eauto).
      discriminate Hends.
Defined.




Lemma X9_witness :
  loadConfig (Some "/nowhere.json") Demo.m_config
  = (Demo.m_config, Normal {| mcpServers := Some ∅ |})
  ∧ lookup_server "docs" (Some "/nowhere.json") Demo.m_config
    = (Demo.m_config, Throw (Error (not_found_message "docs"))).
Proof.
  destruct (X9_missing_explicit_config (RT := Demo.runtime) "docs" "/nowhere.json"
              Demo.m_config ltac:(discriminate) ltac:(vm_compute; reflexivity))
    as [Hload Hlookup].
  split; [exact Hload|]. apply Hlookup. vm_compute.
  intros Hin. repeat (apply elem_of_cons in Hin as [Hin|Hin]; [discriminate Hin|]).
  by apply elem_of_nil in Hin.
Defined.


Lemma X11_witness :
  @Index.connectWithTransport Demo.json Demo.refusing Demo.m_refusing
  = (@Build_Machine Demo.json Demo.refusing tt
       [EvConnect Demo.py_transport (Rejected (Error "spawn ENOENT"))] Demo.with_transport,
     Throw (Error "spawn ENOENT"))
  ∧ @IndexAuth.connectWithTransport Demo.json Demo.refusing Demo.m_refusing
    = (@Build_Machine Demo.json Demo.refusing tt
         [EvConnect Demo.py_transport (Rejected (Error "spawn ENOENT"));
          EvConsoleError "Failed to connect to MCP server:" (Some (Error "spawn ENOENT"))]
         Demo.with_transport,
       Throw (Error "Connection failed: spawn ENOENT")).
Proof.
  exact (proj1 (X11_failed_connection (RT := Demo.refusing) Demo.py_transport
                  Demo.m_refusing eq_refl)
           tt (Error "spawn ENOENT") eq_refl).
Defined.

Lemma X12_witness :
  @Index.connectWithTransport Demo.json Demo.listing Demo.m_listing
  = @IndexAuth.connectWithTransport Demo.json Demo.listing Demo.m_listing
  ∧ tool_name <$> this_tools (this (@Index.connectWithTransport Demo.json Demo.listing
                                      Demo.m_listing).1)
    = ["get_weather"; "get_time"].
Proof.
  destruct (X12_registered_tools_reach_the_model (RT := Demo.listing) Demo.py_transport
              Demo.m_listing tt tt [Demo.weather_tool; Demo.time_tool]
              eq_refl eq_refl eq_refl) as (Hindex & Hauth & Hnames & _).
  split.
  - rewrite Hindex, Hauth. reflexivity.
  - rewrite Hindex. exact Hnames.
Defined.

Lemma X13_witness :
  ∃ r evs environment,
    trace (IndexAuth.connect_serverConfig Demo.both_entry (Some "dev") (Some "secret") []
             Demo.m_config).1
    = trace Demo.m_config
        ++ EvConsoleLog "Using mcp-remote to connect to: https://example.test/mcp"
        :: EvConnect {| command := Some "npx";
                        args := ["mcp-remote"; "https://example.test/mcp"];
                        env := Some environment |} r
        :: evs
    ∧ connections evs = [] ∧ prompts evs = []
    ∧ environment !! "GITHUB_USERNAME" = Some "dev"
    ∧ environment !! "GITHUB_TOKEN" = Some "secret"
    ∧ ∀ k, k ≠ "GITHUB_USERNAME" → k ≠ "GITHUB_TOKEN" →
           environment !! k = process_env !! k.
Proof.
  apply (X13_bridge_environment (RT := Demo.runtime) Demo.both_entry
           "https://example.test/mcp" "dev" "secret" [] Demo.m_config eq_refl);
    discriminate.
Defined.


Lemma X15_witness :
  Index.connect_serverConfig Demo.url_entry Demo.m_config
  = (Demo.m_config, Throw (TypeError "Cannot read properties of undefined (reading 'join')")).
Proof.
  exact (proj1 (X15_index_ts_remote_entries (RT := Demo.runtime) Demo.url_entry Demo.m_config)
           eq_refl).
Defined.

Lemma X16_witness :
  flag_value "--config" ["--remote"; "docs"; "--username"; "dev"] = None
  ∧ flag_value "--config" ["--remote"; "docs"; "--config"] = None
  ∧ flag_value "--config" ["--remote"; "docs"; "--config"; "--username"; "dev"]
    = Some "--username".
Proof.
  split; [|split].
  - apply (proj1 (X16_option_values "--config")). cbn. intros [H|[H|[H|[H|[]]]]]; discriminate.
  - apply (proj2 (X16_option_values "--config") ["--remote"; "docs"] []).
    cbn. intros [H|[H|[]]]; discriminate.
  - apply (proj2 (X16_option_values "--config") ["--remote"; "docs"] ["--username"; "dev"]).
    cbn. intros [H|[H|[]]]; discriminate.
Defined.

Lemma X18_witness :
  Index.main ["--local"; "server.py"] ["hello"; "again"; "more"; "quit"]
    Demo.m_second_query_fails
  = ({| world := Demo.world_of [] [];
        trace :=
          trace (Index.main_try ["--local"; "server.py"]
                   ["hello"; "again"; "more"; "quit"] Demo.m_second_query_fails).1
            ++ [EvClose (Fulfilled tt); EvExit 0];
        this :=
          this (Index.main_try ["--local"; "server.py"]
                  ["hello"; "again"; "more"; "quit"] Demo.m_second_query_fails).1 |},
     Halt (Exited 0)).
Proof.
  apply (X18_index_ts_swallows_exceptions (RT := Demo.runtime) ["--local"; "server.py"]
           ["hello"; "again"; "more"; "quit"] Demo.m_second_query_fails _
           (Error "Failed to invoke Bedrock model: throttled")).
  - vm_compute. reflexivity.
  - vm_compute. reflexivity.
Defined.

Lemma X19_witness :
  Index.main_try ["--local"] ["hello"] Demo.m_one
  = (logged Demo.m_one invalid_arguments, Normal tt)
  ∧ IndexAuth.main_try ["--local"] ["hello"] Demo.m_one
    = (logged Demo.m_one invalid_arguments, Normal tt).
Proof.
  apply (proj2 (X19_other_command_lines (RT := Demo.runtime) ["--local"] ["hello"] Demo.m_one
                  ltac:(intros (f & t & r & Heq & _); discriminate Heq))).
  intros [Hh|[Hh|Hh]]; discriminate Hh.
Defined.

Lemma X20_witness :
  ∃ evs tl,
    trace (processContent (initial_state "both?") (response_content Demo.two_tool_reply)
             Demo.m_two_replied).1
    = trace Demo.m_two_replied ++ evs
    ∧ initial_messages "both?"
        ++ [tool_use_message "get_weather" (Some "{city:Oslo}" : option (@Json Demo.json)) "toolu_01";
            tool_result_message "toolu_01" Demo.sunny;
            tool_use_message "get_time" None "toolu_02";
            tool_result_message "toolu_02" Demo.noon]
      = qs_messages (initial_state "both?") ++ tl
    ∧ result_payloads tl = result_content <$> tool_results evs
    ∧ [Demo.sunny; Demo.noon] = toolResults (initial_state "both?") ++ tool_results evs
    ∧ length (tool_results evs) = 2.
Proof.
  apply (X20_tool_results_are_forwarded (RT := Demo.runtime)
           (response_content Demo.two_tool_reply) (initial_state "both?")
           {| qs_messages :=
                initial_messages "both?"
                  ++ [tool_use_message "get_weather" (Some "{city:Oslo}" : option (@Json Demo.json)) "toolu_01";
                      tool_result_message "toolu_01" Demo.sunny;
                      tool_use_message "get_time" None "toolu_02";
                      tool_result_message "toolu_02" Demo.noon];
              finalText := ["Checking both.";
                            "[Calling tool get_weather with args {city:Oslo}]";
                            "It is sunny.";
                            "[Calling tool get_time with args undefined]";
                            "Done."];
              toolResults := [Demo.sunny; Demo.noon] |}
           Demo.m_two_replied
           (processContent (initial_state "both?")
              (response_content Demo.two_tool_reply) Demo.m_two_replied).1).
  vm_compute. reflexivity.
Defined.

Lemma X21_witness :
  @defaultPaths Demo.json Demo.runtime !! 2 = Some "/home/dev/.mcp/config.json"
  ∧ @defaultPaths Demo.json Demo.steady !! 2 = Some "/.mcp/config.json".
Proof.
  split.
  - exact (proj1 (proj2 (X21_per_user_candidate (RT := Demo.runtime)))
             "/home/dev" eq_refl ltac:(discriminate)).
  - exact (proj2 (proj2 (proj2 (X21_per_user_candidate (RT := Demo.steady))))
             eq_refl eq_refl).
Defined.
End MoreScriptedRuns.
